(** * weasyprint server: a shallow embedding of [server.py]

    The server wraps an external rendering engine behind two HTTP handlers.
    This development embeds the request pipeline of [server.py]:

    - [PosixPath]: the path functions of the Python run time the server calls
      ([os.path.join], [os.path.abspath]);
    - [URLFetcher_call]: the resource access controller, [URLFetcher.__call__];
    - [FS], [World] and the monad [M]: the file system and the log of calls to
      the outside, threaded through the handlers;
    - [render_pdf], [save_part_to_file], [stream_file], [stream_file_ext],
      [render_pdf_url]: the handlers.

    Definitions come first, theorems after them. *)

From Stdlib Require Import String Ascii List Bool Arith NArith Lia.
Import ListNotations.
Open Scope list_scope.
Open Scope string_scope.

(* ================================================================= *)
(** ** Python values used by the server *)

(** Exceptions. Every class here derives from Python's [Exception], so an
    [except Exception] clause catches each of them. *)
Inductive exn : Type :=
| ValueError (msg : string)
| KeyError (key : string)
| TypeError (msg : string)
| AttributeError (msg : string)
| OSError (msg : string)
| EngineError (detail : string).

(** A double quote character, for the header values that contain one. *)
Definition dquote : string := String (ascii_of_nat 34) EmptyString.

(** [s.startswith(p)] *)
Definition startswith (s p : string) : bool := String.prefix p s.

(** [s.endswith("/")] *)
Fixpoint endswith_sep (s : string) : bool :=
  match s with
  | EmptyString => false
  | String c EmptyString => Ascii.eqb c "/"%char
  | String _ r => endswith_sep r
  end.

(** [sep.join(comps)] *)
Definition str_join (sep : string) (comps : list string) : string :=
  String.concat sep comps.

(** [s.split("/")]: never empty, one more field than there are slashes. *)
Fixpoint split (s : string) : list string :=
  match s with
  | EmptyString => [EmptyString]
  | String c r =>
      if Ascii.eqb c "/"%char then EmptyString :: split r
      else match split r with
           | h :: t => String c h :: t
           | [] => [String c EmptyString]
           end
  end.

(** Python dictionaries keep insertion order; assigning to a key that is
    present replaces the value in place. *)
Definition dict (V : Type) : Type := list (string * V).

Fixpoint dict_set {V} (k : string) (v : V) (d : dict V) : dict V :=
  match d with
  | [] => [(k, v)]
  | (k', v') :: r => if k' =? k then (k, v) :: r else (k', v') :: dict_set k v r
  end.

Fixpoint dict_get {V} (k : string) (d : dict V) : option V :=
  match d with
  | [] => None
  | (k', v) :: r => if k' =? k then Some v else dict_get k r
  end.

Definition dict_contains {V} (k : string) (d : dict V) : bool :=
  match dict_get k d with Some _ => true | None => false end.

Definition dict_values {V} (d : dict V) : list V := map snd d.

(** [x in xs] for a sequence of strings. *)
Definition str_in (x : string) (xs : list string) : bool :=
  existsb (String.eqb x) xs.

(* ================================================================= *)
(** ** [os.path] on a POSIX host *)

Module PosixPath.

Definition sep : string := "/".

Definition isabs (s : string) : bool := startswith s sep.

(** [os.path.join(a, b)] with one tail component, as the server calls it. *)
Definition join (a b : string) : string :=
  if startswith b sep then b
  else if (a =? "") || endswith_sep a then a ++ b
  else a ++ sep ++ b.

(** The number of leading slashes [normpath] keeps: POSIX allows one or
    two, and treats three or more as one. *)
Definition initial_slashes (path : string) : nat :=
  if startswith path sep then
    if startswith path "//" && negb (startswith path "///") then 2 else 1
  else 0.

(** One turn of [normpath]'s loop over the components. *)
Definition norm_step (init : nat) (new_comps : list string) (comp : string)
  : list string :=
  if (comp =? "") || (comp =? ".") then new_comps
  else if negb (comp =? "..")
          || ((init =? 0)%nat && (match new_comps with [] => true | _ => false end))
          || (last new_comps "" =? "..")
       then (new_comps ++ [comp])%list
       else removelast new_comps.

Definition norm_comps (path : string) : list string :=
  fold_left (norm_step (initial_slashes path)) (split path) [].

Fixpoint slashes (n : nat) : string :=
  match n with
  | 0 => ""
  | S k => sep ++ slashes k
  end.

Definition normpath (path : string) : string :=
  if path =? "" then "."
  else
    let p := slashes (initial_slashes path) ++ str_join sep (norm_comps path) in
    if p =? "" then "." else p.

(** [os.path.abspath(path)]; the working directory is the process's. *)
Definition abspath (cwd path : string) : string :=
  normpath (if isabs path then path else join cwd path).

(** [os.path.basename(p)]: what follows the last slash. *)
Definition basename (p : string) : string := last (split p) "".

(** The components of [abspath]: the key under which the file system
    stores an entry. *)
Definition key (cwd path : string) : list string :=
  norm_comps (if isabs path then path else join cwd path).

End PosixPath.

(* ================================================================= *)
(** ** The resource access controller *)

(** The fields of [urllib.parse.urlparse]'s result the server reads. *)
Record ParseResult : Type := mkParse {
  scheme : string;
  netloc : string;
  path : string
}.

(** What [URLFetcher.__call__] does with a locator: hand it to the engine's
    [default_url_fetcher], or raise. *)
Inductive fetch_outcome : Type :=
| Delegate (url : string)
| Reject (e : exn).

Section URLFetcher.
(** The interpreter's [urlparse] and the working directory of the process. *)
Variable urlparse : string -> ParseResult.
Variable cwd : string.

Definition URLFetcher_call (valid_paths : list string) (url : string)
  : fetch_outcome :=
  let parsed := urlparse url in
  if scheme parsed =? "data" then Delegate url
  else if str_in (scheme parsed) [""; "file"] && negb (path parsed =? "") then
    if str_in (PosixPath.abspath cwd (path parsed)) valid_paths
    then Delegate url
    else Reject (ValueError "Only known path allowed")
  else Reject (ValueError "External resources are not allowed").
End URLFetcher.

(* ================================================================= *)
(** ** The file system *)

(** Entries are stored under the components of their absolute, normalised
    path; the root (the empty key) is always a directory. *)
Inductive node : Type :=
| Dir
| File (content : string).

Definition FS : Type := list (list string * node).

Fixpoint key_eqb (a b : list string) : bool :=
  match a, b with
  | [], [] => true
  | x :: a', y :: b' => (x =? y) && key_eqb a' b'
  | _, _ => false
  end.

(** [is_prefix p k]: the entry [k] is [p] or lies below it. *)
Fixpoint is_prefix (p k : list string) : bool :=
  match p, k with
  | [], _ => true
  | x :: p', y :: k' => (x =? y) && is_prefix p' k'
  | _ :: _, [] => false
  end.

(** [lies_inside d k]: the entry [k] lies strictly below the directory [d]. *)
Definition lies_inside (d k : list string) : bool :=
  is_prefix d k && negb (key_eqb d k).

Fixpoint fs_lookup (fs : FS) (k : list string) : option node :=
  match fs with
  | [] => None
  | (k', n) :: r => if key_eqb k' k then Some n else fs_lookup r k
  end.

Definition fs_exists (fs : FS) (k : list string) : bool :=
  match fs_lookup fs k with Some _ => true | None => false end.

Definition is_dir (fs : FS) (k : list string) : bool :=
  match k with
  | [] => true
  | _ => match fs_lookup fs k with Some Dir => true | _ => false end
  end.

(** [fs_put fs k n]: the entry [k] becomes [n]. *)
Definition fs_put (fs : FS) (k : list string) (n : node) : FS :=
  (k, n) :: filter (fun e => negb (key_eqb k (fst e))) fs.

Definition fs_mkdir (fs : FS) (k : list string) : FS := fs_put fs k Dir.

(** [open(name, 'wb')]: the parent must be a directory and the name must not
    be one; the file is created, or truncated. *)
Definition fs_open_wb (fs : FS) (k : list string) : option FS :=
  match k with
  | [] => None
  | _ => if is_dir fs (removelast k) && negb (is_dir fs k)
         then Some (fs_put fs k (File ""))
         else None
  end.

(** The walk the kernel makes down a path before it opens the file the path
    names: empty and [.] components are passed over, [..] climbs, and every
    name before the last has to be a directory that exists. A path that
    ends in a slash, in [.] or in [..] names a directory, not a file, and
    yields nothing. *)
Fixpoint fs_walk (f : FS) (cur comps : list string) : option (list string) :=
  match comps with
  | [] => None
  | c :: rest =>
      if (c =? "") || (c =? ".") then fs_walk f cur rest
      else if c =? ".." then fs_walk f (removelast cur) rest
      else match rest with
           | [] => Some (cur ++ [c])%list
           | _ :: _ =>
               if is_dir f (cur ++ [c])%list
               then fs_walk f (cur ++ [c])%list rest
               else None
           end
  end.


(** Where [open(path, 'wb')] would put the file, for a path taken from the
    working directory [cwd] when it is relative. *)
Definition fs_locate (f : FS) (cwd path : string) : option (list string) :=
  fs_walk f [] (split (if PosixPath.isabs path then path
                       else PosixPath.join cwd path)).

(** [file_.write(chunk)] on a file opened by [fs_open_wb]. *)
Definition fs_append (fs : FS) (k : list string) (chunk : string) : FS :=
  match fs_lookup fs k with
  | Some (File c) => fs_put fs k (File (c ++ chunk))
  | _ => fs
  end.

(** [open(name, 'rb')] and the whole content behind it. *)
Definition fs_read (fs : FS) (k : list string) : option string :=
  match fs_lookup fs k with
  | Some (File c) => Some c
  | _ => None
  end.

(** Recursive removal of a directory: the entry and all below it. *)
Definition fs_rmtree (fs : FS) (d : list string) : FS :=
  filter (fun e => negb (is_prefix d (fst e))) fs.

(* ================================================================= *)
(** ** The rendering engine, an outside collaborator *)

(** The [url_fetcher] an engine object is built with: the engine's own
    default, or a [URLFetcher] holding the paths it allows. *)
Inductive Fetcher : Type :=
| DefaultFetcher
| Restricted (valid_paths : list string).

Inductive HTMLSource : Type :=
| HtmlFilename (p : string)
| HtmlGuess (g : string).

(** [HTML(...)] as built by the server: its source and its fetcher. *)
Record HTMLDoc : Type := mkHTML {
  html_source : HTMLSource;
  html_fetcher : Fetcher
}.

(** [CSS(filename=..., url_fetcher=...)] or [CSS(string=...)]. *)
Inductive CSSSheet : Type :=
| CssFilename (p : string) (f : Fetcher)
| CssString (s : string).

(** The engine is opaque. Each of its three entry points may raise; what it
    does is given from outside as a function of the call and of the files it
    can see. [write_pdf] yields the bytes of the artifact. *)
Record Engine : Type := mkEngine {
  HTML_init : HTMLDoc -> FS -> option exn;
  CSS_init : CSSSheet -> FS -> option exn;
  write_pdf : HTMLDoc -> list CSSSheet -> list string -> FS -> exn + string
}.

(* ================================================================= *)
(** ** The world a handler runs in *)

(** What a handler does to the outside, in order. *)
Inductive Event : Type :=
| Mkdtemp (dir : string)
| Cleanup (dir : string)
| NewHTML (doc : HTMLDoc)
| NewCSS (sheet : CSSSheet)
| WritePdf (doc : HTMLDoc) (stylesheets : list CSSSheet)
           (attachments : list string) (target : string)
| LogInfo (msg : string)
| LogException (msg : string) (e : exn)
| Prepared (status : nat) (headers : list (string * string))
| Sent (chunk : string)
| SentEOF.

Record World : Type := mkWorld {
  fs : FS;
  log : list Event
}.

(** The process environment: working directory, the name [tempfile] picks
    for a new directory, and the engine. *)
Record Env : Type := mkEnv {
  cwd : string;
  mkdtemp : FS -> string;
  engine : Engine
}.

(** Computations that read and change the world and may raise. *)
Definition M (A : Type) : Type := World -> (exn + A) * World.

Definition ret {A} (a : A) : M A := fun w => (inr a, w).

Definition raise {A} (e : exn) : M A := fun w => (inl e, w).

Definition bind {A B} (m : M A) (k : A -> M B) : M B :=
  fun w => match m w with
           | (inl e, w') => (inl e, w')
           | (inr a, w') => k a w'
           end.

Notation "x <- m ;; k" := (bind m (fun x => k))
  (at level 61, m at next level, right associativity).
Notation "m ;;; k" := (bind m (fun _ => k))
  (at level 61, right associativity).

Definition emit (ev : Event) : M unit :=
  fun w => (inr tt, mkWorld (fs w) (log w ++ [ev])%list).

Definition get_fs : M FS := fun w => (inr (fs w), w).

Definition put_fs (f : FS) : M unit := fun w => (inr tt, mkWorld f (log w)).

(** [with tempfile.TemporaryDirectory() as temp_dir: body]. The directory is
    removed when the block is left, by [return] or by an exception. *)
Definition with_TemporaryDirectory {A} (E : Env) (body : string -> M A) : M A :=
  fun w =>
    let temp_dir := mkdtemp E (fs w) in
    let w1 := mkWorld (fs_mkdir (fs w) (PosixPath.key (cwd E) temp_dir))
                      (log w ++ [Mkdtemp temp_dir])%list in
    let (r, w2) := body temp_dir w1 in
    (r, mkWorld (fs_rmtree (fs w2) (PosixPath.key (cwd E) temp_dir))
                (log w2 ++ [Cleanup temp_dir])%list).

(** [try: m  except Exception: handler  else: k]. *)
Definition try_except_else {A B} (m : M A) (handler : exn -> M B) (k : A -> M B)
  : M B :=
  fun w => match m w with
           | (inl e, w') => handler e w'
           | (inr a, w') => k a w'
           end.

(* ================================================================= *)
(** ** Requests and responses *)

(** One section of a multipart body. [name] and [filename] come from its
    content disposition header and are [None] when the header lacks them;
    [chunks] is what successive [read_chunk] calls return. *)
Record Part : Type := mkPart {
  name : option string;
  filename : option string;
  chunks : list string
}.

(** [query] is the multi-valued mapping of the query string, in order. *)
Record Request : Type := mkRequest {
  content_type : string;
  parts : list Part;
  query : list (string * string)
}.

Record Response : Type := mkResponse {
  status : nat;
  headers : list (string * string);
  body : string
}.

(** [web.Response(status=..., text=...)] *)
Definition text_response (st : nat) (text : string) : Response :=
  mkResponse st [] text.

(** A header the server library lets through: no carriage return and no
    line feed in it. *)
Definition is_CR_or_LF (c : ascii) : bool :=
  Nat.eqb (nat_of_ascii c) 13 || Nat.eqb (nat_of_ascii c) 10.

Fixpoint header_safe (s : string) : bool :=
  match s with
  | EmptyString => true
  | String c r => negb (is_CR_or_LF c) && header_safe r
  end.

Definition headers_safe (hs : list (string * string)) : bool :=
  forallb (fun h => header_safe (fst h) && header_safe (snd h)) hs.

(** [query[k]]: the first value under [k], if any. *)
Fixpoint query_getone (k : string) (q : list (string * string)) : option string :=
  match q with
  | [] => None
  | (k', v) :: r => if k' =? k then Some v else query_getone k r
  end.

(** [query.get(k, default)] *)
Definition query_get (k default : string) (q : list (string * string)) : string :=
  match query_getone k q with Some v => v | None => default end.

Definition CHUNK_SIZE : N := 65536%N.

(** The first [n] bytes of [s], and what follows them. *)
Fixpoint take (n : N) (s : string) : string :=
  match s with
  | EmptyString => EmptyString
  | String c r => if N.eqb n 0 then EmptyString else String c (take (N.pred n) r)
  end.

Fixpoint drop (n : N) (s : string) : string :=
  match s with
  | EmptyString => EmptyString
  | String c r => if N.eqb n 0 then s else drop (N.pred n) r
  end.

(** [outfile.read(n)] until it returns nothing: the content cut in pieces of
    [n] bytes. The fuel bounds the number of reads. *)
Fixpoint read_chunks (fuel : nat) (n : N) (data : string) : list string :=
  match fuel with
  | 0 => []
  | S f =>
      let piece := take n data in
      if piece =? "" then [] else piece :: read_chunks f n (drop n data)
  end.

(* ================================================================= *)
(** ** The handlers *)

Section Handlers.
Variable E : Env.

(** [HTML(...)]: builds the document object through the engine. *)
Definition new_HTML (doc : HTMLDoc) : M HTMLDoc :=
  emit (NewHTML doc) ;;;
  f <- get_fs ;;
  match HTML_init (engine E) doc f with
  | Some e => raise e
  | None => ret doc
  end.

(** [CSS(...)] *)
Definition new_CSS (sheet : CSSSheet) : M CSSSheet :=
  emit (NewCSS sheet) ;;;
  f <- get_fs ;;
  match CSS_init (engine E) sheet f with
  | Some e => raise e
  | None => ret sheet
  end.

(** [html.write_pdf(target, stylesheets=..., attachments=...)]: on success
    the artifact is on disk under [target]. *)
Definition call_write_pdf (doc : HTMLDoc) (stylesheets : list CSSSheet)
    (attachments : list string) (target : string) : M unit :=
  emit (WritePdf doc stylesheets attachments target) ;;;
  f <- get_fs ;;
  match write_pdf (engine E) doc stylesheets attachments f with
  | inl e => raise e
  | inr bytes =>
      match fs_open_wb f (PosixPath.key (cwd E) target) with
      | None => raise (OSError "cannot open the target")
      | Some f' => put_fs (fs_append f' (PosixPath.key (cwd E) target) bytes)
      end
  end.

(** The copy loop of [save_part_to_file]: chunks are written until one is
    empty. *)
Fixpoint write_chunks (k : list string) (cs : list string) (f : FS) : FS :=
  match cs with
  | [] => f
  | chunk :: rest =>
      if chunk =? "" then f else write_chunks k rest (fs_append f k chunk)
  end.

Definition save_part_to_file (part : Part) (directory : string) : M string :=
  match filename part with
  | None => raise (TypeError "expected str, bytes or os.PathLike object, not NoneType")
  | Some fn =>
      let filename := PosixPath.join directory fn in
      f <- get_fs ;;
      match fs_locate f (cwd E) filename with
      | None => raise (OSError "cannot open the file")
      | Some k =>
          match fs_open_wb f k with
          | None => raise (OSError "cannot open the file")
          | Some f' => put_fs (write_chunks k (chunks part) f') ;;; ret filename
          end
      end
  end.

(** Which part names are staged. *)
Definition accepted (n : string) : bool :=
  str_in n ["html"; "css"] || startswith n "attachment." || startswith n "asset.".

(** The [while True] loop of [render_pdf] over the parts of the body;
    [reader.next()] returns [None] when the list is exhausted. *)
Fixpoint ingest (temp_dir : string) (ps : list Part) (form_data : dict string)
  : M (dict string) :=
  match ps with
  | [] => ret form_data
  | part :: rest =>
      match name part with
      | None => raise (AttributeError "'NoneType' object has no attribute 'startswith'")
      | Some n =>
          if accepted n then
            p <- save_part_to_file part temp_dir ;;
            ingest temp_dir rest (dict_set n p form_data)
          else ingest temp_dir rest form_data
      end
  end.

Definition content_disposition (kind output_name : string) : string :=
  kind ++ "; filename=" ++ dquote ++ output_name ++ dquote.

(** [response.prepare(request)]: the status line and the headers go out.
    The server library refuses a header that holds a carriage return or a
    line feed, and raises. *)
Definition prepare (st : nat) (hs : list (string * string)) : M unit :=
  if headers_safe hs then emit (Prepared st hs)
  else raise (ValueError "Newline or carriage return detected in headers. Potential header injection attack.").

(** [await response.write(data)] for each piece read. *)
Fixpoint send_chunks (pieces : list string) : M unit :=
  match pieces with
  | [] => ret tt
  | piece :: rest => emit (Sent piece) ;;; send_chunks rest
  end.

(** The file is opened, read piece by piece, each piece sent as it is read,
    and the body closed by [write_eof]. The value is what was sent. *)
Definition stream_body (filename : string) : M string :=
  f <- get_fs ;;
  match fs_read f (PosixPath.key (cwd E) filename) with
  | None => raise (OSError "No such file or directory")
  | Some data =>
      let pieces := read_chunks (S (String.length data)) CHUNK_SIZE data in
      send_chunks pieces ;;;
      emit SentEOF ;;;
      ret (String.concat "" pieces)
  end.

Definition stream_file (filename content_type : string) : M Response :=
  let headers :=
    [("Content-Type", content_type);
     ("Content-Disposition",
      content_disposition "attachment" (PosixPath.basename filename))] in
  prepare 200 headers ;;;
  b <- stream_body filename ;;
  ret (mkResponse 200 headers b).

Definition stream_file_ext (filename content_type output_name : string)
    (inline : bool) : M Response :=
  let attachment := if inline then "inline" else "attachment" in
  let headers :=
    [("Content-Type", content_type);
     ("Content-Disposition", content_disposition attachment output_name)] in
  prepare 200 headers ;;;
  b <- stream_body filename ;;
  ret (mkResponse 200 headers b).

Definition default_css : string := "@page { size: A4; margin: 2cm 2.5cm; }".

(** The attachments: the staged paths whose name starts with
    [attachment.], in the order of the dictionary. *)
Definition attachments_of (form_data : dict string) : list string :=
  map snd (filter (fun kv => startswith (fst kv) "attachment.") form_data).

Definition render_pdf (request : Request) : M Response :=
  if negb (content_type request =? "multipart/form-data") then
    emit (LogInfo ("Bad request. Received content type " ++ content_type request
                   ++ " instead of multipart/form-data.")) ;;;
    ret (text_response 400 "Multipart request required.")
  else
    with_TemporaryDirectory E (fun temp_dir =>
      form_data <- ingest temp_dir (parts request) [] ;;
      match dict_get "html" form_data with
      | None =>
          emit (LogInfo "Bad request. No html file provided.") ;;;
          ret (text_response 400 "No html file provided.")
      | Some html_path =>
          html <- new_HTML (mkHTML (HtmlFilename html_path)
                                   (Restricted (dict_values form_data))) ;;
          css <- match dict_get "css" form_data with
                 | Some css_path =>
                     new_CSS (CssFilename css_path (Restricted (dict_values form_data)))
                 | None => new_CSS (CssString default_css)
                 end ;;
          let attachments := attachments_of form_data in
          let pdf_filename := PosixPath.join temp_dir "output.pdf" in
          try_except_else
            (call_write_pdf html [css] attachments pdf_filename)
            (fun e =>
               emit (LogException "PDF generation failed" e) ;;;
               ret (text_response 500 "PDF generation failed."))
            (fun _ => stream_file pdf_filename "application/pdf")
      end).

Definition render_pdf_url (request : Request) : M Response :=
  match query_getone "url" (query request) with
  | None => raise (KeyError "url")
  | Some url =>
      let output_name := query_get "output" "output.pdf" (query request) in
      let inline_q := query_get "inline" "" (query request) in
      let inline := inline_q =? "true" in
      with_TemporaryDirectory E (fun temp_dir =>
        html <- new_HTML (mkHTML (HtmlGuess url) DefaultFetcher) ;;
        let pdf_filename := PosixPath.join temp_dir "output.pdf" in
        try_except_else
          (call_write_pdf html [] [] pdf_filename)
          (fun e =>
             emit (LogException "PDF generation failed" e) ;;;
             ret (text_response 500 "PDF generation failed."))
          (fun _ => stream_file_ext pdf_filename "application/pdf" output_name inline))
  end.

Definition healthcheck (request : Request) : M Response :=
  ret (text_response 200 "OK").

End Handlers.

(* ================================================================= *)
(** ** Vocabulary of the statements *)

(** The world right after [TemporaryDirectory()] made the workspace. *)
Definition workspace (E : Env) (w : World) : string := mkdtemp E (fs w).

Definition entered (E : Env) (w : World) : World :=
  mkWorld (fs_mkdir (fs w) (PosixPath.key (cwd E) (workspace E w)))
          (log w ++ [Mkdtemp (workspace E w)])%list.

(** The ingestion stage of [render_pdf] on a request. *)
Definition staged (E : Env) (request : Request) (w : World)
  : (exn + dict string) * World :=
  ingest E (workspace E w) (parts request) [] (entered E w).

(** A world with more events logged, and the world a handler leaves when the
    block of the temporary directory is done in [w2]. *)
Definition add_log (w : World) (evs : list Event) : World :=
  mkWorld (fs w) (log w ++ evs)%list.

Definition leave (E : Env) (w w2 : World) : World :=
  mkWorld (fs_rmtree (fs w2) (PosixPath.key (cwd E) (workspace E w)))
          (log w2 ++ [Cleanup (workspace E w)])%list.

(** The objects [render_pdf] builds from the staged parts. *)
Definition post_doc (form_data : dict string) (html_path : string) : HTMLDoc :=
  mkHTML (HtmlFilename html_path) (Restricted (dict_values form_data)).

Definition post_sheet (form_data : dict string) : CSSSheet :=
  match dict_get "css" form_data with
  | Some css_path => CssFilename css_path (Restricted (dict_values form_data))
  | None => CssString default_css
  end.

(** The object [render_pdf_url] builds from the query. *)
Definition get_doc (url : string) : HTMLDoc := mkHTML (HtmlGuess url) DefaultFetcher.

(** An engine object is sandboxed when every locator it can meet goes
    through a [URLFetcher]: a document or style sheet built with one, or the
    built-in style, which names no resource. *)
Definition doc_sandboxed (d : HTMLDoc) : bool :=
  match html_fetcher d with
  | Restricted _ => true
  | DefaultFetcher => false
  end.

Definition sheet_sandboxed (s : CSSSheet) : bool :=
  match s with
  | CssFilename _ (Restricted _) => true
  | CssFilename _ DefaultFetcher => false
  | CssString text => text =? default_css
  end.

Definition call_sandboxed (ev : Event) : bool :=
  match ev with
  | NewHTML d => doc_sandboxed d
  | NewCSS s => sheet_sandboxed s
  | WritePdf d sheets _ _ => doc_sandboxed d && forallb sheet_sandboxed sheets
  | _ => true
  end.

(** The calls to the engine among the events of a log. *)
Definition engine_event (ev : Event) : bool :=
  match ev with
  | NewHTML _ | NewCSS _ | WritePdf _ _ _ _ => true
  | _ => false
  end.

Definition engine_calls (l : list Event) : list Event := filter engine_event l.

Definition is_Mkdtemp (ev : Event) : bool :=
  match ev with Mkdtemp _ => true | _ => false end.

(** [tempfile] hands out a directory that did not exist, under an absolute
    name. *)
Definition fresh_workspace (E : Env) (w : World) : Prop :=
  PosixPath.isabs (workspace E w) = true /\
  forall k, is_prefix (PosixPath.key (cwd E) (workspace E w)) k = true ->
            fs_lookup (fs w) k = None.

(** A file name made of one plain component. *)
Fixpoint no_slash (s : string) : bool :=
  match s with
  | EmptyString => true
  | String c r => negb (Ascii.eqb c "/"%char) && no_slash r
  end.

Definition plain_name (s : string) : bool :=
  no_slash s && negb (s =? "") && negb (s =? ".") && negb (s =? "..").

(** A component [normpath] leaves in an absolute path. *)
Definition clean_comp (c : string) : Prop := c <> "" /\ c <> "." /\ c <> "..".

(** The symlink-free form of a path, following the specification's words for
    the canonical path of the resource access controller: every symbolic link
    met on the way is replaced by its target. [links] gives the links of the
    host, by the components of their absolute path. *)
Definition Symlinks : Type := list (list string * string).

Fixpoint readlink (links : Symlinks) (k : list string) : option string :=
  match links with
  | [] => None
  | (k', target) :: r => if key_eqb k' k then Some target else readlink r k
  end.

Fixpoint resolve_links (fuel : nat) (links : Symlinks) (cur todo : list string)
  : option (list string) :=
  match fuel with
  | 0 => None
  | S f =>
      match todo with
      | [] => Some cur
      | c :: rest =>
          if (c =? "") || (c =? ".") then resolve_links f links cur rest
          else if c =? ".." then resolve_links f links (removelast cur) rest
          else match readlink links (cur ++ [c])%list with
               | None => resolve_links f links (cur ++ [c])%list rest
               | Some target =>
                   resolve_links f links
                     (if PosixPath.isabs target then [] else cur)
                     (split target ++ rest)%list
               end
      end
  end.

Definition spec_canonical (links : Symlinks) (cwd path : string) : option string :=
  match resolve_links 1000 links []
          (split (if PosixPath.isabs path then path else PosixPath.join cwd path)) with
  | Some comps => Some (PosixPath.sep ++ str_join PosixPath.sep comps)
  | None => None
  end.

(** The first claim of the resource access controller as the specification
    words it, at one locator: the path compared is the symlink-free one. *)
Definition resolves_by_canonical_path (urlparse : string -> ParseResult)
    (cwd : string) (links : Symlinks) (valid_paths : list string) (url : string)
  : Prop :=
  In (scheme (urlparse url)) [""; "file"] ->
  path (urlparse url) <> "" ->
  forall canon,
    spec_canonical links cwd (path (urlparse url)) = Some canon ->
    (URLFetcher_call urlparse cwd valid_paths url = Delegate url
     <-> In canon valid_paths).

(* ================================================================= *)
(** ** Reference instances for the examples *)

Definition in_range (lo hi n : nat) : bool := Nat.leb lo n && Nat.leb n hi.

Definition is_alpha (c : ascii) : bool :=
  in_range 65 90 (nat_of_ascii c) || in_range 97 122 (nat_of_ascii c).

Definition is_scheme_char (c : ascii) : bool :=
  let n := nat_of_ascii c in
  is_alpha c || in_range 48 57 n
  || Nat.eqb n 43 || Nat.eqb n 45 || Nat.eqb n 46.

Definition lower (c : ascii) : ascii :=
  let n := nat_of_ascii c in
  if in_range 65 90 n then ascii_of_nat (n + 32) else c.

Fixpoint str_map (f : ascii -> ascii) (s : string) : string :=
  match s with
  | EmptyString => EmptyString
  | String c r => String (f c) (str_map f r)
  end.

Fixpoint str_forall (p : ascii -> bool) (s : string) : bool :=
  match s with
  | EmptyString => true
  | String c r => p c && str_forall p r
  end.

(** [span_until stop s]: [s] cut before the first character [stop] accepts. *)
Fixpoint span_until (stop : ascii -> bool) (s : string) : string * string :=
  match s with
  | EmptyString => (EmptyString, EmptyString)
  | String c r =>
      if stop c then (EmptyString, s)
      else let (a, b) := span_until stop r in (String c a, b)
  end.

Definition is_char (n : nat) (c : ascii) : bool := Nat.eqb (nat_of_ascii c) n.

(** A parser for locators of the shape [scheme:[//netloc]path[?query][#fragment]],
    after [urllib.parse.urlsplit]: the scheme is what precedes the first colon
    when that is a letter followed by scheme characters, in lower case; the
    authority follows two slashes; the path ends at the first [?] or [#].
    Only the examples use it: the theorems hold for any parser. *)
Definition urlparse_ref (url : string) : ParseResult :=
  let (pre, post) := span_until (is_char 58) url in
  let (sch, rest) :=
    match pre, post with
    | String c0 _, String _ after =>
        if is_alpha c0 && str_forall is_scheme_char pre
        then (str_map lower pre, after) else (EmptyString, url)
    | _, _ => (EmptyString, url)
    end in
  let (loc, rest) :=
    if startswith rest "//" then
      span_until (fun c => is_char 47 c || is_char 63 c || is_char 35 c)
                 (drop 2 rest)
    else (EmptyString, rest) in
  let (p, _) := span_until (fun c => is_char 63 c || is_char 35 c) rest in
  mkParse sch loc p.


(** An engine that renders every document to the same artifact. *)
Definition engine_ok : Engine :=
  mkEngine (fun _ _ => None) (fun _ _ => None) (fun _ _ _ _ => inr "%PDF-1.7").

(** An engine whose [write_pdf] always fails. *)
Definition engine_failing : Engine :=
  mkEngine (fun _ _ => None) (fun _ _ => None)
           (fun _ _ _ _ => inl (EngineError "cannot parse the document")).

Definition env_ok : Env := mkEnv "/srv/app" (fun _ => "/tmp/tmpk3x9q") engine_ok.

Definition env_failing : Env :=
  mkEnv "/srv/app" (fun _ => "/tmp/tmpk3x9q") engine_failing.

(** A host with only the temporary area on it. *)
Definition world0 : World := mkWorld [(["tmp"], Dir)] [].

Definition multipart (ps : list Part) : Request :=
  mkRequest "multipart/form-data" ps [].

Definition get_request (q : list (string * string)) : Request :=
  mkRequest "application/octet-stream" [] q.

(* ================================================================= *)
(** ** Vocabulary of the further properties *)

(** What the copy loop of [save_part_to_file] puts in the file: the chunks
    that come before the first empty one. *)
Fixpoint received (cs : list string) : string :=
  match cs with
  | [] => EmptyString
  | chunk :: rest => if chunk =? "" then EmptyString else chunk ++ received rest
  end.

(** The entries the loop of [render_pdf] makes for the parts it stages, in
    the order of arrival: the name of each accepted part with its declared
    file name joined to the workspace. *)
Fixpoint staged_entries (temp_dir : string) (ps : list Part) : list (string * string) :=
  match ps with
  | [] => []
  | part :: rest =>
      match name part, filename part with
      | Some n, Some fn =>
          if accepted n
          then (n, PosixPath.join temp_dir fn) :: staged_entries temp_dir rest
          else staged_entries temp_dir rest
      | _, _ => staged_entries temp_dir rest
      end
  end.

(** Every part the loop stages declares a file name of one plain component. *)
Definition plain_parts (ps : list Part) : Prop :=
  forall part n, In part ps -> name part = Some n -> accepted n = true ->
    exists fn, filename part = Some fn /\ plain_name fn = true.

(** [p] has no [.] and no [..] among its components. *)
Definition dot_free (p : string) : Prop :=
  ~ In "." (split p) /\ ~ In ".." (split p).

(** An engine that cannot read any document, and one that cannot read any
    style sheet given as a file. *)
Definition engine_unreadable : Engine :=
  mkEngine (fun _ _ => Some (OSError "cannot read the document"))
           (fun _ _ => None) (fun _ _ _ _ => inr "%PDF-1.7").

Definition engine_no_css : Engine :=
  mkEngine (fun _ _ => None)
           (fun sheet _ => match sheet with
                           | CssFilename _ _ => Some (OSError "cannot read the style sheet")
                           | CssString _ => None
                           end)
           (fun _ _ _ _ => inr "%PDF-1.7").

Definition env_unreadable : Env :=
  mkEnv "/srv/app" (fun _ => "/tmp/tmpk3x9q") engine_unreadable.

Definition env_no_css : Env :=
  mkEnv "/srv/app" (fun _ => "/tmp/tmpk3x9q") engine_no_css.

(* ================================================================= *)
(** ** Strings and paths *)

Lemma split_nonempty (s : string) : split s <> [].
Proof.
  destruct s as [|c r]; simpl; [discriminate|].
  destruct (Ascii.eqb c "/"); [discriminate|].
  destruct (split r); discriminate.
Qed.

Lemma split_app_sep (a b : string) :
  split (a ++ "/" ++ b) = (split a ++ split b)%list.
Proof.
  induction a as [|c r IH]; simpl.
  - reflexivity.
  - destruct (Ascii.eqb c "/").
    + simpl. now rewrite <- IH.
    + simpl in IH. rewrite IH.
      pose proof (split_nonempty r) as Hne.
      destruct (split r); [congruence | reflexivity].
Qed.

Lemma split_no_slash (b : string) : no_slash b = true -> split b = [b].
Proof.
  induction b as [|c r IH]; simpl; intros H; [reflexivity|].
  apply andb_prop in H as [Hc Hr].
  apply negb_true_iff in Hc. rewrite Hc, (IH Hr). reflexivity.
Qed.

Lemma endswith_sep_inv (s : string) :
  endswith_sep s = true -> exists s', s = s' ++ "/".
Proof.
  induction s as [|c r IH]; simpl; [discriminate|].
  destruct r as [|c' r'].
  - intros H. apply Ascii.eqb_eq in H. subst c. now exists "".
  - intros H. destruct (IH H) as [s' Hs']. exists (String c s').
    simpl. now rewrite <- Hs'.
Qed.

Lemma append_assoc (a b c : string) : (a ++ b) ++ c = a ++ (b ++ c).
Proof. induction a; simpl; congruence. Qed.

Lemma append_empty_r (a : string) : a ++ "" = a.
Proof. induction a; simpl; congruence. Qed.

Lemma startswith_app (a b p : string) :
  startswith a p = true -> startswith (a ++ b) p = true.
Proof.
  unfold startswith. revert a.
  induction p as [|c p IH]; intros a; destruct a as [|d a]; simpl;
    try reflexivity; try discriminate.
  - now destruct b.
  - destruct (ascii_dec c d); [apply IH | discriminate].
Qed.

Lemma str_in_In (x : string) (xs : list string) : str_in x xs = true <-> In x xs.
Proof.
  unfold str_in. rewrite existsb_exists. split.
  - intros [y [Hy He]]. apply String.eqb_eq in He. now subst.
  - intros H. exists x. split; [assumption | apply String.eqb_refl].
Qed.

Lemma str_in_not_In (x : string) (xs : list string) :
  str_in x xs = false <-> ~ In x xs.
Proof.
  rewrite <- str_in_In. destruct (str_in x xs); split; intros; congruence.
Qed.

(* ================================================================= *)
(** ** What [normpath] leaves of an absolute path *)

Lemma last_clean (l : list string) :
  Forall clean_comp l -> last l "" <> "..".
Proof.
  induction l as [|x l IH]; intros H; simpl; [discriminate|].
  inversion H as [|? ? Hx Hl]; subst.
  destruct l as [|y l'].
  - apply Hx.
  - apply IH, Hl.
Qed.

Lemma removelast_clean (l : list string) :
  Forall clean_comp l -> Forall clean_comp (removelast l).
Proof.
  induction l as [|x l IH]; intros H; simpl; [constructor|].
  inversion H as [|? ? Hx Hl]; subst.
  destruct l as [|y l']; [constructor|].
  constructor; [assumption | apply IH, Hl].
Qed.

(** With leading slashes, a turn of the loop keeps the components free of
    empty, [.] and [..] ones. *)
Lemma norm_step_clean (init : nat) (acc : list string) (comp : string) :
  init <> 0 -> Forall clean_comp acc ->
  Forall clean_comp (PosixPath.norm_step init acc comp).
Proof.
  intros Hinit Hacc. unfold PosixPath.norm_step.
  destruct (comp =? "") eqn:He; [assumption|].
  destruct (comp =? ".") eqn:Hd; [assumption|]. simpl.
  apply String.eqb_neq in He, Hd.
  destruct (comp =? "..") eqn:Hdd; simpl.
  - apply Nat.eqb_neq in Hinit. rewrite Hinit. simpl.
    pose proof (last_clean acc Hacc) as Hl.
    apply String.eqb_neq in Hl. rewrite Hl.
    now apply removelast_clean.
  - apply String.eqb_neq in Hdd.
    apply Forall_app. split; [assumption|].
    constructor; [repeat split; assumption | constructor].
Qed.

Lemma norm_fold_clean (init : nat) (comps acc : list string) :
  init <> 0 -> Forall clean_comp acc ->
  Forall clean_comp (fold_left (PosixPath.norm_step init) comps acc).
Proof.
  intros Hinit. revert acc.
  induction comps as [|c comps IH]; intros acc Hacc; simpl; [assumption|].
  apply IH. now apply norm_step_clean.
Qed.

Lemma initial_slashes_abs (p : string) :
  PosixPath.isabs p = true ->
  PosixPath.initial_slashes p = 1 \/ PosixPath.initial_slashes p = 2.
Proof.
  unfold PosixPath.isabs, PosixPath.initial_slashes. intros ->.
  destruct (_ && _); auto.
Qed.

(** Below an absolute working directory every path joins to an absolute one. *)
Lemma joined_isabs (cwd p : string) :
  PosixPath.isabs cwd = true ->
  PosixPath.isabs (if PosixPath.isabs p then p else PosixPath.join cwd p) = true.
Proof.
  intros Hc. destruct (PosixPath.isabs p) eqn:Hp; [assumption|].
  unfold PosixPath.join. unfold PosixPath.isabs in Hp. rewrite Hp.
  destruct ((cwd =? "") || endswith_sep cwd);
    unfold PosixPath.isabs; now apply startswith_app.
Qed.

Lemma key_clean (cwd p : string) :
  PosixPath.isabs cwd = true -> Forall clean_comp (PosixPath.key cwd p).
Proof.
  intros Hc. unfold PosixPath.key, PosixPath.norm_comps.
  apply norm_fold_clean; [|constructor].
  destruct (initial_slashes_abs _ (joined_isabs cwd p Hc)) as [-> | ->];
    discriminate.
Qed.

(** [abspath] is one or two slashes followed by the components of [key]. *)
Lemma abspath_shape (cwd p : string) :
  PosixPath.isabs cwd = true ->
  exists n, (n = 1 \/ n = 2) /\
    PosixPath.abspath cwd p =
    PosixPath.slashes n ++ str_join PosixPath.sep (PosixPath.key cwd p).
Proof.
  intros Hc. unfold PosixPath.abspath, PosixPath.key, PosixPath.normpath.
  pose proof (joined_isabs cwd p Hc) as Habs.
  set (full := if PosixPath.isabs p then p else PosixPath.join cwd p) in *.
  exists (PosixPath.initial_slashes full).
  pose proof (initial_slashes_abs _ Habs) as Hn. split; [assumption|].
  destruct full as [|c r]; [discriminate Habs|]. simpl (_ =? _).
  cbv iota.
  destruct Hn as [-> | ->]; reflexivity.
Qed.

Lemma abspath_isabs (cwd p : string) :
  PosixPath.isabs cwd = true -> PosixPath.isabs (PosixPath.abspath cwd p) = true.
Proof.
  intros Hc. destruct (abspath_shape cwd p Hc) as [n [[-> | ->] ->]];
    unfold PosixPath.isabs, startswith; simpl.
  - now destruct (str_join _ _).
  - reflexivity.
Qed.

(* ================================================================= *)
(** ** The resource access controller *)

Section FetcherFacts.
Variable urlparse : string -> ParseResult.
Variable cwd : string.

(** C4. A locator of the [data] scheme is handed to the default loader
    whatever the allowed paths are: no path is looked at. *)
Theorem data_scheme_always_delegates (valid_paths : list string) (url : string) :
  scheme (urlparse url) = "data" ->
  URLFetcher_call urlparse cwd valid_paths url = Delegate url.
Proof.
  intros H. unfold URLFetcher_call. now rewrite H.
Qed.

(** What is refused as external, and what alone can be delegated. *)
Lemma URLFetcher_external (valid_paths : list string) (url : string) :
  (scheme (urlparse url) <> "data" ->
   ~ In (scheme (urlparse url)) [""; "file"] \/ path (urlparse url) = "" ->
   URLFetcher_call urlparse cwd valid_paths url
   = Reject (ValueError "External resources are not allowed"))
  /\
  (forall u, URLFetcher_call urlparse cwd valid_paths url = Delegate u ->
     u = url /\ In (scheme (urlparse url)) ["data"; ""; "file"]).
Proof.
  unfold URLFetcher_call. split.
  - intros Hd Hx. apply String.eqb_neq in Hd. rewrite Hd.
    destruct Hx as [Hs | Hp].
    + apply str_in_not_In in Hs. now rewrite Hs.
    + rewrite Hp. now rewrite andb_false_r.
  - intros u. destruct (scheme (urlparse url) =? "data") eqn:Hd.
    + apply String.eqb_eq in Hd. intros [= <-]. rewrite Hd. simpl. auto.
    + destruct (str_in (scheme (urlparse url)) [""; "file"]) eqn:Hs;
        simpl; [|discriminate].
      destruct (negb _); [|discriminate].
      destruct (str_in _ valid_paths); [|discriminate].
      intros [= <-]. apply str_in_In in Hs. split; [reflexivity|].
      right. exact Hs.
Qed.

(** C1, as the code has it. For a locator of empty or [file] scheme with a
    path, the path is made absolute and normalised by [abspath], a purely
    lexical operation: the result starts with a slash and has no empty,
    [.] or [..] component, and symbolic links are not looked at. The
    locator is handed to the default loader exactly when that string is
    among the allowed paths, and is refused with the error for unknown
    paths otherwise. *)
Theorem local_path_checked_by_abspath (valid_paths : list string) (url : string) :
  PosixPath.isabs cwd = true ->
  In (scheme (urlparse url)) [""; "file"] ->
  path (urlparse url) <> "" ->
  let p := PosixPath.abspath cwd (path (urlparse url)) in
  (PosixPath.isabs p = true
   /\ Forall clean_comp (PosixPath.key cwd (path (urlparse url)))
   /\ exists n, (n = 1 \/ n = 2) /\
        p = PosixPath.slashes n
            ++ str_join PosixPath.sep (PosixPath.key cwd (path (urlparse url))))
  /\ (In p valid_paths ->
      URLFetcher_call urlparse cwd valid_paths url = Delegate url)
  /\ (~ In p valid_paths ->
      URLFetcher_call urlparse cwd valid_paths url
      = Reject (ValueError "Only known path allowed")).
Proof.
  intros Hc Hs Hp p. split; [|split].
  - split; [now apply abspath_isabs|].
    split; [now apply key_clean | now apply abspath_shape].
  - intros Hin. unfold URLFetcher_call.
    assert (Hd : (scheme (urlparse url) =? "data") = false).
    { apply String.eqb_neq. intros E. rewrite E in Hs.
      simpl in Hs. intuition discriminate. }
    rewrite Hd. apply str_in_In in Hs. rewrite Hs.
    apply String.eqb_neq in Hp. rewrite Hp. simpl.
    apply str_in_In in Hin. fold p. now rewrite Hin.
  - intros Hnin. unfold URLFetcher_call.
    assert (Hd : (scheme (urlparse url) =? "data") = false).
    { apply String.eqb_neq. intros E. rewrite E in Hs.
      simpl in Hs. intuition discriminate. }
    rewrite Hd. apply str_in_In in Hs. rewrite Hs.
    apply String.eqb_neq in Hp. rewrite Hp. simpl.
    apply str_in_not_In in Hnin. fold p. now rewrite Hnin.
Qed.

End FetcherFacts.

(** The data locator of an inline image is delegated with nothing allowed. *)
Lemma data_scheme_witness :
  URLFetcher_call urlparse_ref "/srv/app" [] "data:image/png;base64,AAAA"
  = Delegate "data:image/png;base64,AAAA".
Proof.
  apply (data_scheme_always_delegates urlparse_ref "/srv/app" []
           "data:image/png;base64,AAAA").
  reflexivity.
Defined.

(** A traversal out of the workspace is refused; a detour that stays on an
    allowed file is accepted. *)
Lemma local_path_witness :
  URLFetcher_call urlparse_ref "/tmp/tmpk3x9q" ["/tmp/tmpk3x9q/doc.html"]
    "../../etc/passwd"
  = Reject (ValueError "Only known path allowed")
  /\ URLFetcher_call urlparse_ref "/tmp/tmpk3x9q" ["/tmp/tmpk3x9q/doc.html"]
       "file:///tmp/tmpk3x9q/img/../doc.html"
     = Delegate "file:///tmp/tmpk3x9q/img/../doc.html".
Proof.
  split.
  - apply (local_path_checked_by_abspath urlparse_ref "/tmp/tmpk3x9q"
             ["/tmp/tmpk3x9q/doc.html"] "../../etc/passwd").
    + reflexivity.
    + simpl. left. reflexivity.
    + discriminate.
    + simpl. intros [H | H]; [discriminate H | exact H].
  - apply (local_path_checked_by_abspath urlparse_ref "/tmp/tmpk3x9q"
             ["/tmp/tmpk3x9q/doc.html"] "file:///tmp/tmpk3x9q/img/../doc.html").
    + reflexivity.
    + simpl. right. left. reflexivity.
    + discriminate.
    + simpl. left. reflexivity.
Defined.

(** C1 as worded fails where symbolic links are involved. On a host whose
    [/tmp] is a link to [/private/tmp], a locator naming a staged file through
    [/tmp] has its symlink-free form among the allowed paths and is refused;
    and an allowed path that is itself a link to [/etc/passwd] is accepted
    although its symlink-free form is not allowed. *)
Lemma symlinks_are_not_resolved :
  (spec_canonical [(["tmp"], "/private/tmp")] "/srv/app"
     (path (urlparse_ref "file:///tmp/tmpk3x9q/logo.png"))
   = Some "/private/tmp/tmpk3x9q/logo.png"
   /\ URLFetcher_call urlparse_ref "/srv/app" ["/private/tmp/tmpk3x9q/logo.png"]
        "file:///tmp/tmpk3x9q/logo.png"
      = Reject (ValueError "Only known path allowed")
   /\ ~ resolves_by_canonical_path urlparse_ref "/srv/app"
          [(["tmp"], "/private/tmp")] ["/private/tmp/tmpk3x9q/logo.png"]
          "file:///tmp/tmpk3x9q/logo.png")
  /\
  (spec_canonical [(["tmp"; "tmpk3x9q"; "logo.png"], "/etc/passwd")] "/srv/app"
     (path (urlparse_ref "file:///tmp/tmpk3x9q/logo.png"))
   = Some "/etc/passwd"
   /\ URLFetcher_call urlparse_ref "/srv/app" ["/tmp/tmpk3x9q/logo.png"]
        "file:///tmp/tmpk3x9q/logo.png"
      = Delegate "file:///tmp/tmpk3x9q/logo.png"
   /\ ~ resolves_by_canonical_path urlparse_ref "/srv/app"
          [(["tmp"; "tmpk3x9q"; "logo.png"], "/etc/passwd")]
          ["/tmp/tmpk3x9q/logo.png"] "file:///tmp/tmpk3x9q/logo.png").
Proof.
  split; (split; [vm_compute; reflexivity | split; [vm_compute; reflexivity|]]).
  - intros H.
    specialize (H (or_intror (or_introl eq_refl)) ltac:(discriminate)).
    specialize (H "/private/tmp/tmpk3x9q/logo.png" ltac:(vm_compute; reflexivity)).
    destruct H as [_ H]. specialize (H (or_introl eq_refl)).
    vm_compute in H. discriminate H.
  - intros H.
    specialize (H (or_intror (or_introl eq_refl)) ltac:(discriminate)).
    specialize (H "/etc/passwd" ltac:(vm_compute; reflexivity)).
    destruct H as [H _]. specialize (H ltac:(vm_compute; reflexivity)).
    simpl in H. destruct H as [H | H]; [discriminate H | exact H].
Qed.

(* ================================================================= *)
(** ** Joining a plain name below an absolute directory *)

Lemma prefix_nil (s : string) : String.prefix "" s = true.
Proof. now destruct s. Qed.

Lemma plain_name_inv (b : string) :
  plain_name b = true ->
  no_slash b = true /\ clean_comp b /\
  exists c r, b = String c r /\ c <> "/"%char.
Proof.
  unfold plain_name. intros H.
  apply andb_prop in H as [H Hdd]. apply andb_prop in H as [H Hd].
  apply andb_prop in H as [Hs He].
  apply negb_true_iff in Hdd, Hd, He. apply String.eqb_neq in Hdd, Hd, He.
  split; [assumption|]. split; [repeat split; assumption|].
  destruct b as [|c r]; [congruence|]. exists c, r. split; [reflexivity|].
  simpl in Hs. apply andb_prop in Hs as [Hc _].
  apply negb_true_iff in Hc. now apply Ascii.eqb_neq in Hc.
Qed.

Lemma norm_step_plain (init : nat) (acc : list string) (b : string) :
  clean_comp b -> PosixPath.norm_step init acc b = (acc ++ [b])%list.
Proof.
  intros [He [Hd Hdd]]. unfold PosixPath.norm_step.
  apply String.eqb_neq in He, Hd, Hdd. now rewrite He, Hd, Hdd.
Qed.

Lemma startswith_cons (c d : ascii) (s p : string) :
  startswith (String c s) (String d p) = Ascii.eqb d c && startswith s p.
Proof.
  unfold startswith.
  change (String.prefix (String d p) (String c s))
    with (if ascii_dec d c then String.prefix p s else false).
  destruct (ascii_dec d c) as [->|Hn].
  - now rewrite Ascii.eqb_refl.
  - apply Ascii.eqb_neq in Hn. now rewrite Hn.
Qed.

Lemma startswith_nil (s : string) : startswith s "" = true.
Proof. apply prefix_nil. Qed.

Lemma startswith_empty (d : ascii) (p : string) :
  startswith "" (String d p) = false.
Proof. reflexivity. Qed.

(** Case analysis on whether a character is the slash. *)
Ltac slash_case c :=
  let E := fresh "E" in
  destruct (Ascii.eqb c "/"%char) eqn:E;
  [ apply Ascii.eqb_eq in E; subst c
  | let E' := fresh "E" in
    assert (E' : Ascii.eqb "/"%char c = false)
      by (rewrite Ascii.eqb_sym; exact E) ].

Ltac starts :=
  repeat (progress
            (cbn [append endswith_sep andb orb negb];
             rewrite ?startswith_cons, ?startswith_nil, ?startswith_empty,
               ?Ascii.eqb_refl;
             repeat match goal with
                    | H : Ascii.eqb _ _ = false |- _ => rewrite H
                    end));
  try reflexivity; try discriminate.

(** Appending to a path that does not end in a slash, or a plain name to one
    that does, leaves the count of leading slashes as it was. *)
Lemma initial_slashes_join (td b : string) :
  PosixPath.isabs td = true -> plain_name b = true ->
  PosixPath.initial_slashes (PosixPath.join td b) = PosixPath.initial_slashes td.
Proof.
  intros Habs Hb.
  destruct (plain_name_inv b Hb) as [_ [_ [c0 [b' [-> Hc0]]]]].
  apply Ascii.eqb_neq in Hc0.
  assert (Hc0' : Ascii.eqb "/" c0 = false) by (rewrite Ascii.eqb_sym; exact Hc0).
  unfold PosixPath.join, PosixPath.isabs, PosixPath.initial_slashes,
    PosixPath.sep in *.
  destruct td as [|c1 r1]; [discriminate Habs|].
  rewrite startswith_cons, startswith_nil, andb_true_r in Habs.
  apply Ascii.eqb_eq in Habs. subst c1.
  change (String "/" r1 =? "") with false. cbn [orb].
  destruct r1 as [|c2 r2]; [starts|].
  destruct r2 as [|c3 r3].
  - slash_case c2; starts.
  - destruct (endswith_sep (String "/" (String c2 (String c3 r3))));
      slash_case c2; slash_case c3; starts.
Qed.

Lemma join_isabs (td b : string) :
  PosixPath.isabs td = true -> plain_name b = true ->
  PosixPath.isabs (PosixPath.join td b) = true.
Proof.
  intros Habs Hb.
  destruct (plain_name_inv b Hb) as [_ [_ [c0 [b' [-> Hc0]]]]].
  unfold PosixPath.join.
  assert (Hs : startswith (String c0 b') PosixPath.sep = false).
  { unfold PosixPath.sep. rewrite startswith_cons.
    apply Ascii.eqb_neq in Hc0. now rewrite Ascii.eqb_sym, Hc0. }
  rewrite Hs.
  destruct ((td =? "") || endswith_sep td);
    unfold PosixPath.isabs; now apply startswith_app.
Qed.

Lemma split_join (td b : string) :
  PosixPath.isabs td = true -> plain_name b = true ->
  exists comps,
    split (PosixPath.join td b) = (comps ++ [b])%list /\
    (split td = comps \/ split td = (comps ++ [""])%list).
Proof.
  intros Habs Hb.
  destruct (plain_name_inv b Hb) as [Hns [_ [c0 [b' [E Hc0]]]]].
  unfold PosixPath.join.
  assert (Hs : startswith b PosixPath.sep = false).
  { subst b. unfold PosixPath.sep. rewrite startswith_cons.
    apply Ascii.eqb_neq in Hc0. now rewrite Ascii.eqb_sym, Hc0. }
  rewrite Hs.
  assert (Hne : (td =? "") = false) by (destruct td; [discriminate Habs | reflexivity]).
  rewrite Hne. simpl orb.
  destruct (endswith_sep td) eqn:He.
  - destruct (endswith_sep_inv td He) as [t' ->]. exists (split t'). split.
    + rewrite append_assoc, split_app_sep, (split_no_slash b Hns). reflexivity.
    + right. rewrite <- (append_empty_r (t' ++ "/")), append_assoc.
      rewrite split_app_sep. reflexivity.
  - exists (split td). split; [|now left].
    unfold PosixPath.sep. rewrite split_app_sep, (split_no_slash b Hns). reflexivity.
Qed.

(** The workspace path joined with a plain name is stored right below the
    workspace. *)
Lemma key_join_plain (cwd td b : string) :
  PosixPath.isabs td = true -> plain_name b = true ->
  PosixPath.key cwd (PosixPath.join td b) = (PosixPath.key cwd td ++ [b])%list.
Proof.
  intros Habs Hb. unfold PosixPath.key.
  rewrite (join_isabs td b Habs Hb), Habs.
  unfold PosixPath.norm_comps. rewrite (initial_slashes_join td b Habs Hb).
  destruct (plain_name_inv b Hb) as [_ [Hclean _]].
  destruct (split_join td b Habs Hb) as [comps [-> [-> | ->]]].
  - rewrite fold_left_app. simpl. now apply norm_step_plain.
  - rewrite !fold_left_app. simpl. now apply norm_step_plain.
Qed.

(* ================================================================= *)
(** ** The file system *)

Lemma key_eqb_eq (a b : list string) : key_eqb a b = true <-> a = b.
Proof.
  revert b. induction a as [|x a IH]; intros [|y b]; simpl; try easy.
  rewrite andb_true_iff, String.eqb_eq, IH. split.
  - now intros [-> ->].
  - now intros [= -> ->].
Qed.

Lemma key_eqb_refl (a : list string) : key_eqb a a = true.
Proof. now apply key_eqb_eq. Qed.

Lemma key_eqb_neq (a b : list string) : key_eqb a b = false <-> a <> b.
Proof.
  rewrite <- key_eqb_eq. destruct (key_eqb a b); split; congruence.
Qed.

Lemma is_prefix_app (d l : list string) : is_prefix d (d ++ l) = true.
Proof.
  induction d as [|x d IH]; simpl; [reflexivity|].
  now rewrite String.eqb_refl, IH.
Qed.

(** After the recursive removal nothing is left at or below the directory. *)
Lemma fs_lookup_rmtree (f : FS) (d k : list string) :
  is_prefix d k = true -> fs_lookup (fs_rmtree f d) k = None.
Proof.
  intros Hk. unfold fs_rmtree.
  induction f as [|[k' n] f IH]; simpl; [reflexivity|].
  destruct (is_prefix d k') eqn:Hp; simpl; [assumption|].
  destruct (key_eqb k' k) eqn:He; [|assumption].
  apply key_eqb_eq in He. congruence.
Qed.

(** Entries that are not below the directory survive its removal. *)
Lemma fs_lookup_rmtree_outside (f : FS) (d k : list string) :
  is_prefix d k = false -> fs_lookup (fs_rmtree f d) k = fs_lookup f k.
Proof.
  intros Hk. unfold fs_rmtree.
  induction f as [|[k' n] f IH]; simpl; [reflexivity|].
  destruct (is_prefix d k') eqn:Hp; simpl.
  - destruct (key_eqb k' k) eqn:He; [|assumption].
    apply key_eqb_eq in He. congruence.
  - now rewrite IH.
Qed.

Lemma fs_lookup_put_same (f : FS) (k : list string) (n : node) :
  fs_lookup (fs_put f k n) k = Some n.
Proof. unfold fs_put. simpl. now rewrite key_eqb_refl. Qed.

Lemma fs_lookup_put_other (f : FS) (k k' : list string) (n : node) :
  k <> k' -> fs_lookup (fs_put f k n) k' = fs_lookup f k'.
Proof.
  intros Hn. unfold fs_put. simpl.
  apply key_eqb_neq in Hn. rewrite Hn.
  induction f as [|[k0 n0] f IH]; simpl; [reflexivity|].
  destruct (key_eqb k k0) eqn:E0; simpl.
  - apply key_eqb_eq in E0. subst k0. now rewrite Hn.
  - now rewrite IH.
Qed.

(* ================================================================= *)
(** ** The workspace *)

(** Whatever the block does, the world it leaves has no entry at or below
    the temporary directory. *)
Lemma with_TemporaryDirectory_cleans {A} (E : Env) (body : string -> M A)
    (w : World) (k : list string) :
  is_prefix (PosixPath.key (cwd E) (workspace E w)) k = true ->
  fs_lookup (fs (snd (with_TemporaryDirectory E body w))) k = None.
Proof.
  intros Hk. unfold with_TemporaryDirectory.
  fold (workspace E w).
  destruct (body (workspace E w) _) as [r w2]. simpl.
  now apply fs_lookup_rmtree.
Qed.

(** C3. When a handler is done, by a response or by an exception, the
    workspace of the request is gone: a POST that is not multipart is
    answered 400 without a directory being made or the files being touched;
    every other POST leaves nothing at or below the workspace directory; a
    GET without [url] leaves the world as it was, and every other GET
    leaves nothing at or below its workspace directory. *)
Theorem workspace_removed_on_every_exit (E : Env) (request : Request) (w : World) :
  let ws := PosixPath.key (cwd E) (workspace E w) in
  let post := render_pdf E request w in
  let got := render_pdf_url E request w in
  (if content_type request =? "multipart/form-data"
   then forall k, is_prefix ws k = true -> fs_lookup (fs (snd post)) k = None
   else fst post = inr (text_response 400 "Multipart request required.")
        /\ fs (snd post) = fs w
        /\ filter is_Mkdtemp (log (snd post)) = filter is_Mkdtemp (log w))
  /\
  (match query_getone "url" (query request) with
   | Some _ => forall k, is_prefix ws k = true -> fs_lookup (fs (snd got)) k = None
   | None => snd got = w
   end).
Proof.
  intros ws post got. split.
  - subst post. unfold render_pdf.
    destruct (content_type request =? "multipart/form-data"); simpl.
    + intros k Hk. now apply with_TemporaryDirectory_cleans.
    + split; [reflexivity|]. split; [reflexivity|].
      rewrite filter_app. simpl. now rewrite app_nil_r.
  - subst got. unfold render_pdf_url.
    destruct (query_getone "url" (query request)); simpl.
    + intros k Hk. now apply with_TemporaryDirectory_cleans.
    + reflexivity.
Qed.

(** C10. A GET without a [url] parameter ends in a [KeyError] raised by the
    look-up itself: no response is built, and the world is untouched, so no
    workspace was made and the engine was not called. *)
Theorem missing_url_raises_KeyError (E : Env) (request : Request) (w : World) :
  query_getone "url" (query request) = None ->
  render_pdf_url E request w = (inl (KeyError "url"), w).
Proof.
  intros H. unfold render_pdf_url. now rewrite H.
Qed.

Lemma missing_url_witness :
  render_pdf_url env_ok (get_request [("output", "report.pdf")]) world0
  = (inl (KeyError "url"), world0).
Proof.
  apply (missing_url_raises_KeyError env_ok
           (get_request [("output", "report.pdf")]) world0).
  reflexivity.
Defined.

(* ================================================================= *)
(** ** Ingestion *)

Lemma dict_get_set_same {V} (k : string) (v : V) (d : dict V) :
  dict_get k (dict_set k v d) = Some v.
Proof.
  induction d as [|[k' v'] d IH]; simpl.
  - now rewrite String.eqb_refl.
  - destruct (k' =? k) eqn:E; simpl.
    + now rewrite String.eqb_refl.
    + now rewrite E.
Qed.

Lemma dict_get_set_other {V} (k k' : string) (v : V) (d : dict V) :
  k <> k' -> dict_get k' (dict_set k v d) = dict_get k' d.
Proof.
  intros Hn. induction d as [|[k0 v0] d IH]; simpl.
  - apply String.eqb_neq in Hn. now rewrite Hn.
  - destruct (k0 =? k) eqn:E; simpl.
    + apply String.eqb_eq in E. subst k0.
      apply String.eqb_neq in Hn. now rewrite Hn.
    + destruct (k0 =? k'); [reflexivity | exact IH].
Qed.

(** Staging one part writes files and nothing else: the log is as before,
    and the path returned is the workspace joined with the declared name. *)
Lemma save_part_to_file_inv (E : Env) (part : Part) (d : string)
    (w w' : World) (r : exn + string) :
  save_part_to_file E part d w = (r, w') ->
  log w' = log w /\
  forall p, r = inr p ->
    exists fn, filename part = Some fn /\ p = PosixPath.join d fn.
Proof.
  unfold save_part_to_file.
  destruct (filename part) as [fn|].
  - unfold bind, get_fs, put_fs, ret, raise.
    destruct (fs_locate (fs w) _ _) as [k|];
      [destruct (fs_open_wb (fs w) k)|]; intros [= <- <-]; simpl.
    + split; [reflexivity|]. intros p [= <-]. now exists fn.
    + split; [reflexivity | discriminate].
    + split; [reflexivity | discriminate].
  - unfold raise. intros [= <- <-]. split; [reflexivity | discriminate].
Qed.

Lemma ingest_log (E : Env) (d : string) (ps : list Part) :
  forall (fd : dict string) (w w' : World) (r : exn + dict string),
    ingest E d ps fd w = (r, w') -> log w' = log w.
Proof.
  induction ps as [|part ps IH]; intros fd w w' r; simpl.
  - unfold ret. now intros [= <- <-].
  - destruct (name part) as [n|].
    + destruct (accepted n).
      * unfold bind.
        destruct (save_part_to_file E part d w) as [[e|p] w1] eqn:Hs.
        -- intros [= <- <-]. now apply (save_part_to_file_inv _ _ _ _ _ _ Hs).
        -- intros H. apply IH in H. rewrite H.
           now apply (save_part_to_file_inv _ _ _ _ _ _ Hs).
      * apply IH.
    + unfold raise. now intros [= <- <-].
Qed.

(** A key of the dictionary after ingestion was there before or names a
    part of the body, and then its value is that part's staged path. *)
Lemma ingest_origin (E : Env) (d : string) (ps : list Part) (k : string) :
  forall (fd fd' : dict string) (w w' : World) (v : string),
    ingest E d ps fd w = (inr fd', w') ->
    dict_get k fd' = Some v ->
    dict_get k fd = Some v \/
    exists part fn, In part ps /\ name part = Some k /\
                    filename part = Some fn /\ v = PosixPath.join d fn.
Proof.
  induction ps as [|part ps IH]; intros fd fd' w w' v; simpl.
  - unfold ret. intros [= <- <-] H. now left.
  - destruct (name part) as [n|] eqn:Hn; [|discriminate].
    destruct (accepted n).
    + unfold bind.
      destruct (save_part_to_file E part d w) as [[e|p] w1] eqn:Hs; [discriminate|].
      intros Hi Hg.
      destruct (IH _ _ _ _ _ Hi Hg) as [Hold | [part' [fn [Hin H]]]].
      * destruct (String.eqb_spec n k) as [->|Hne].
        -- rewrite dict_get_set_same in Hold. injection Hold as <-.
           destruct (proj2 (save_part_to_file_inv _ _ _ _ _ _ Hs) p eq_refl)
             as [fn [Hf ->]].
           right. exists part, fn. auto.
        -- rewrite dict_get_set_other in Hold by assumption. now left.
      * right. exists part', fn. split; [now right | exact H].
    + intros Hi Hg.
      destruct (IH _ _ _ _ _ Hi Hg) as [Hold | [part' [fn [Hin H]]]].
      * now left.
      * right. exists part', fn. split; [now right | exact H].
Qed.

(** An accepted name carried by a part of the body is a key of the
    dictionary when ingestion completes. *)
Lemma ingest_present (E : Env) (d : string) (ps : list Part) (k : string) :
  forall (fd fd' : dict string) (w w' : World),
    ingest E d ps fd w = (inr fd', w') ->
    accepted k = true ->
    (dict_get k fd <> None \/ exists part, In part ps /\ name part = Some k) ->
    dict_get k fd' <> None.
Proof.
  induction ps as [|part ps IH]; intros fd fd' w w'; simpl.
  - unfold ret. intros [= <- <-] _ [H | [part [[] _]]]. exact H.
  - destruct (name part) as [n|] eqn:Hn; [|discriminate].
    destruct (accepted n) eqn:Ha.
    + unfold bind.
      destruct (save_part_to_file E part d w) as [[e|p] w1] eqn:Hs; [discriminate|].
      intros Hi Hk Hor. apply (IH _ _ _ _ Hi Hk).
      destruct (String.eqb_spec n k) as [->|Hne].
      * left. rewrite dict_get_set_same. discriminate.
      * destruct Hor as [H | [part' [[<- | Hin] Hp]]].
        -- left. now rewrite dict_get_set_other.
        -- congruence.
        -- right. now exists part'.
    + intros Hi Hk Hor. apply (IH _ _ _ _ Hi Hk).
      destruct Hor as [H | [part' [[<- | Hin] Hp]]].
      * now left.
      * congruence.
      * right. now exists part'.
Qed.

Lemma engine_calls_app (l1 l2 : list Event) :
  engine_calls (l1 ++ l2) = (engine_calls l1 ++ engine_calls l2)%list.
Proof. apply filter_app. Qed.

(* ================================================================= *)
(** ** The runs of [render_pdf], one lemma per way out *)

Lemma bind_run {A B} (m : M A) (k : A -> M B) (w : World) :
  bind m k w = match m w with
               | (inl e, w') => (inl e, w')
               | (inr a, w') => k a w'
               end.
Proof. reflexivity. Qed.

(** *** Streaming an artifact *)

Lemma take_drop (n : N) (s : string) : take n s ++ drop n s = s.
Proof.
  revert n. induction s as [|c r IH]; intros n; simpl; [reflexivity|].
  destruct (N.eqb n 0); simpl; [reflexivity | now rewrite IH].
Qed.

Lemma length_drop (n : N) (s : string) :
  String.length (drop n s) <= String.length s.
Proof.
  revert n. induction s as [|c r IH]; intros n; simpl; [lia|].
  destruct (N.eqb n 0); simpl; [lia|]. specialize (IH (N.pred n)). lia.
Qed.

Lemma concat_empty_cons (x : string) (l : list string) :
  String.concat "" (x :: l) = x ++ String.concat "" l.
Proof.
  destruct l as [|y l]; simpl; [now rewrite append_empty_r | reflexivity].
Qed.

(** Reading a file piece by piece and sending each piece gives the file. *)
Lemma read_chunks_concat (n : N) (fuel : nat) :
  n <> 0%N ->
  forall data, String.length data < fuel ->
    String.concat "" (read_chunks fuel n data) = data.
Proof.
  intros Hn. apply N.eqb_neq in Hn.
  induction fuel as [|f IH]; intros data Hlen; [lia|].
  cbn [read_chunks].
  destruct data as [|c r].
  - reflexivity.
  - cbn [take]. rewrite Hn. cbn [String.eqb].
    rewrite concat_empty_cons. cbn [drop]. rewrite Hn.
    rewrite IH.
    + simpl. now rewrite take_drop.
    + pose proof (length_drop (N.pred n) r). simpl in Hlen. lia.
Qed.



Lemma engine_calls_sent (pieces : list string) :
  engine_calls (map Sent pieces) = [].
Proof. induction pieces; simpl; auto. Qed.

Lemma send_chunks_run (pieces : list string) (w : World) :
  send_chunks pieces w = (inr tt, add_log w (map Sent pieces)).
Proof.
  revert w. induction pieces as [|piece rest IH]; intros w; simpl.
  - unfold ret, add_log. rewrite app_nil_r. now destruct w.
  - rewrite bind_run. unfold emit. rewrite IH.
    unfold add_log. cbn [fs log]. now rewrite <- app_assoc.
Qed.

(** Reading an artifact that is there: each piece is sent, then the end of
    the body, and what was sent is the file. *)
Lemma stream_body_reads (E : Env) (filename data : string) (w : World) :
  fs_read (fs w) (PosixPath.key (cwd E) filename) = Some data ->
  stream_body E filename w
  = (inr data,
     add_log w (map Sent (read_chunks (S (String.length data)) CHUNK_SIZE data)
                ++ [SentEOF])).
Proof.
  intros Hr. unfold stream_body. rewrite bind_run. unfold get_fs. rewrite Hr.
  cbv zeta. rewrite bind_run, send_chunks_run, bind_run. unfold emit, ret.
  rewrite read_chunks_concat; [|discriminate|lia].
  unfold add_log. cbn [fs log]. now rewrite <- app_assoc.
Qed.

(** A file that is there, under headers that pass, is sent whole. *)
Lemma stream_file_ok (E : Env) (filename content_type data : string) (w : World) :
  fs_read (fs w) (PosixPath.key (cwd E) filename) = Some data ->
  headers_safe
    [("Content-Type", content_type);
     ("Content-Disposition",
      content_disposition "attachment" (PosixPath.basename filename))] = true ->
  stream_file E filename content_type w
  = (inr (mkResponse 200
            [("Content-Type", content_type);
             ("Content-Disposition",
              content_disposition "attachment" (PosixPath.basename filename))]
            data),
     add_log w
       (Prepared 200
          [("Content-Type", content_type);
           ("Content-Disposition",
            content_disposition "attachment" (PosixPath.basename filename))]
        :: map Sent (read_chunks (S (String.length data)) CHUNK_SIZE data)
        ++ [SentEOF])).
Proof.
  intros Hr Hsafe. unfold stream_file. cbv zeta. rewrite bind_run.
  unfold prepare. rewrite Hsafe. unfold emit. rewrite bind_run.
  rewrite (stream_body_reads E filename data); [|exact Hr].
  unfold ret, add_log. cbn [fs log]. now rewrite <- app_assoc.
Qed.

(** Sending a response changes no file and calls no engine. *)
Lemma stream_body_inert (E : Env) (filename : string) (w w' : World)
    (r : exn + string) :
  stream_body E filename w = (r, w') ->
  fs w' = fs w /\ engine_calls (log w') = engine_calls (log w).
Proof.
  unfold stream_body. rewrite bind_run. unfold get_fs.
  destruct (fs_read (fs w) _) as [data|].
  - cbv zeta. rewrite bind_run, send_chunks_run, bind_run. unfold emit, ret.
    intros [= <- <-]. unfold add_log. cbn [fs log]. split; [reflexivity|].
    rewrite !engine_calls_app, engine_calls_sent. simpl. now rewrite !app_nil_r.
  - unfold raise. intros [= <- <-]. auto.
Qed.

Lemma prepare_inert (st : nat) (hs : list (string * string)) (w w' : World)
    (r : exn + unit) :
  prepare st hs w = (r, w') ->
  fs w' = fs w /\ engine_calls (log w') = engine_calls (log w).
Proof.
  unfold prepare. destruct (headers_safe hs).
  - unfold emit. intros [= <- <-]. cbn [fs log]. split; [reflexivity|].
    rewrite engine_calls_app. simpl. now rewrite app_nil_r.
  - unfold raise. intros [= <- <-]. auto.
Qed.

Lemma stream_file_inert (E : Env) (filename content_type : string)
    (w w' : World) (r : exn + Response) :
  stream_file E filename content_type w = (r, w') ->
  fs w' = fs w /\ engine_calls (log w') = engine_calls (log w).
Proof.
  unfold stream_file. cbv zeta. rewrite bind_run.
  destruct (prepare 200 _ w) as [[e|[]] w1] eqn:Hp;
    apply prepare_inert in Hp as [Hf1 Hc1].
  - intros [= <- <-]. auto.
  - rewrite bind_run.
    destruct (stream_body E filename w1) as [[e|b] w2] eqn:Hb;
      apply stream_body_inert in Hb as [Hf2 Hc2];
      unfold ret; intros [= <- <-]; split; congruence.
Qed.

Lemma stream_file_ext_inert (E : Env) (filename content_type output_name : string)
    (inline : bool) (w w' : World) (r : exn + Response) :
  stream_file_ext E filename content_type output_name inline w = (r, w') ->
  fs w' = fs w /\ engine_calls (log w') = engine_calls (log w).
Proof.
  unfold stream_file_ext. cbv zeta. rewrite bind_run.
  destruct (prepare 200 _ w) as [[e|[]] w1] eqn:Hp;
    apply prepare_inert in Hp as [Hf1 Hc1].
  - intros [= <- <-]. auto.
  - rewrite bind_run.
    destruct (stream_body E filename w1) as [[e|b] w2] eqn:Hb;
      apply stream_body_inert in Hb as [Hf2 Hc2];
      unfold ret; intros [= <- <-]; split; congruence.
Qed.

Ltac run_post E w Hct Hst :=
  unfold render_pdf; rewrite Hct, String.eqb_refl; cbn [negb];
  unfold with_TemporaryDirectory; cbv zeta; rewrite bind_run;
  unfold staged, entered, workspace in Hst; rewrite Hst;
  fold (workspace E w).

(** Closes a goal on the engine calls of a finished run, given the log at
    the end of ingestion. *)
Ltac calls_done Hl :=
  cbn [fs log snd fst]; rewrite ?Hl; rewrite ?engine_calls_app;
  rewrite <- ?app_assoc; simpl (engine_calls (_ :: _)); cbn [app];
  rewrite ?app_nil_r; reflexivity.

(** The same at the end of a run that went on to send the artifact. *)
Ltac stream_done E Hl :=
  let Hs := fresh "Hs" in
  match goal with
  | |- context [stream_file E ?f ?ct ?w0] =>
      destruct (stream_file E f ct w0) as [? ?] eqn:Hs;
      apply stream_file_inert in Hs as [_ Hs]
  | |- context [stream_file_ext E ?f ?ct ?o ?i ?w0] =>
      destruct (stream_file_ext E f ct o i w0) as [? ?] eqn:Hs;
      apply stream_file_ext_inert in Hs as [_ Hs]
  end;
  cbn [fs log snd fst] in *; rewrite engine_calls_app, Hs; calls_done Hl.

Section PostRuns.
Variables (E : Env) (request : Request) (w : World).
Hypothesis Hct : content_type request = "multipart/form-data".

Local Abbreviation target := (PosixPath.join (workspace E w) "output.pdf").

Lemma render_pdf_staging_raises (e : exn) (w2 : World) :
  staged E request w = (inl e, w2) ->
  render_pdf E request w = (inl e, leave E w w2).
Proof. intros Hst. run_post E w Hct Hst. reflexivity. Qed.

Lemma render_pdf_no_html (fd : dict string) (w2 : World) :
  staged E request w = (inr fd, w2) ->
  dict_get "html" fd = None ->
  render_pdf E request w
  = (inr (text_response 400 "No html file provided."),
     leave E w (add_log w2 [LogInfo "Bad request. No html file provided."])).
Proof. intros Hst Hg. run_post E w Hct Hst. rewrite Hg. reflexivity. Qed.

Lemma render_pdf_html_raises (fd : dict string) (w2 : World)
    (html_path : string) (e : exn) :
  staged E request w = (inr fd, w2) ->
  dict_get "html" fd = Some html_path ->
  HTML_init (engine E) (post_doc fd html_path) (fs w2) = Some e ->
  render_pdf E request w
  = (inl e, leave E w (add_log w2 [NewHTML (post_doc fd html_path)])).
Proof.
  intros Hst Hg Hh. run_post E w Hct Hst. rewrite Hg.
  unfold bind, new_HTML, emit, get_fs, raise, bind. cbn [fs log].
  unfold post_doc in Hh. rewrite Hh. reflexivity.
Qed.

Lemma render_pdf_css_raises (fd : dict string) (w2 : World)
    (html_path : string) (e : exn) :
  staged E request w = (inr fd, w2) ->
  dict_get "html" fd = Some html_path ->
  HTML_init (engine E) (post_doc fd html_path) (fs w2) = None ->
  CSS_init (engine E) (post_sheet fd) (fs w2) = Some e ->
  render_pdf E request w
  = (inl e, leave E w (add_log w2 [NewHTML (post_doc fd html_path);
                                   NewCSS (post_sheet fd)])).
Proof.
  intros Hst Hg Hh Hc. run_post E w Hct Hst. rewrite Hg.
  unfold bind, new_HTML, emit, get_fs, raise, ret, bind. cbn [fs log].
  unfold post_doc in Hh. rewrite Hh.
  unfold post_sheet in *.
  destruct (dict_get "css" fd) as [css_path|];
    unfold new_CSS, bind, emit, get_fs, raise; cbn [fs log];
    rewrite Hc; unfold leave, add_log; cbn [fs log];
    rewrite <- ?app_assoc; reflexivity.
Qed.

Lemma render_pdf_write_raises (fd : dict string) (w2 : World)
    (html_path : string) (e : exn) :
  staged E request w = (inr fd, w2) ->
  dict_get "html" fd = Some html_path ->
  HTML_init (engine E) (post_doc fd html_path) (fs w2) = None ->
  CSS_init (engine E) (post_sheet fd) (fs w2) = None ->
  write_pdf (engine E) (post_doc fd html_path) [post_sheet fd]
            (attachments_of fd) (fs w2) = inl e ->
  render_pdf E request w
  = (inr (text_response 500 "PDF generation failed."),
     leave E w
       (add_log w2 [NewHTML (post_doc fd html_path);
                    NewCSS (post_sheet fd);
                    WritePdf (post_doc fd html_path) [post_sheet fd]
                             (attachments_of fd) target;
                    LogException "PDF generation failed" e])).
Proof.
  intros Hst Hg Hh Hc Hw. run_post E w Hct Hst. rewrite Hg.
  unfold bind, new_HTML, emit, get_fs, raise, ret, bind. cbn [fs log].
  unfold post_doc in Hh, Hw. rewrite Hh.
  unfold post_sheet in *.
  destruct (dict_get "css" fd) as [css_path|];
    unfold new_CSS, bind, emit, get_fs, raise, ret; cbn [fs log];
    rewrite Hc;
    unfold try_except_else, call_write_pdf, bind, emit, get_fs, raise, ret;
    cbn [fs log]; rewrite Hw;
    unfold leave, add_log; cbn [fs log];
    rewrite <- ?app_assoc; reflexivity.
Qed.

(** The calls to the engine of a run that reaches [write_pdf]. *)
Lemma render_pdf_engine_calls (fd : dict string) (w2 : World)
    (html_path : string) :
  staged E request w = (inr fd, w2) ->
  dict_get "html" fd = Some html_path ->
  HTML_init (engine E) (post_doc fd html_path) (fs w2) = None ->
  CSS_init (engine E) (post_sheet fd) (fs w2) = None ->
  engine_calls (log (snd (render_pdf E request w)))
  = (engine_calls (log w)
     ++ [NewHTML (post_doc fd html_path);
         NewCSS (post_sheet fd);
         WritePdf (post_doc fd html_path) [post_sheet fd]
                  (attachments_of fd) target])%list.
Proof.
  intros Hst Hg Hh Hc.
  assert (Hl : log w2 = (log w ++ [Mkdtemp (workspace E w)])%list).
  { unfold staged in Hst. now apply ingest_log in Hst. }
  run_post E w Hct Hst. rewrite Hg.
  unfold bind, new_HTML, emit, get_fs, raise, ret, bind. cbn [fs log].
  unfold post_doc in Hh. rewrite Hh.
  assert (Hc' := Hc). unfold post_sheet in Hc'.
  unfold post_sheet.
  destruct (dict_get "css" fd) as [css_path|];
    unfold new_CSS, bind, emit, get_fs, raise, ret; cbn [fs log];
    rewrite Hc';
    unfold try_except_else, call_write_pdf, bind, emit, get_fs, put_fs,
      raise, ret; cbn [fs log];
    destruct (write_pdf (engine E) _ _ _ (fs w2)) as [e|bytes];
    cbn [fs log snd].
  all: try (calls_done Hl).
  all: destruct (fs_open_wb (fs w2) _) as [f'|]; try (calls_done Hl).
  all: stream_done E Hl.
Qed.

End PostRuns.

(* ================================================================= *)
(** ** Writing the artifact into a fresh workspace *)

Section FreshWorkspace.
Variables (E : Env) (w : World).
Hypothesis Hfresh : fresh_workspace E w.

Local Abbreviation ws := (PosixPath.key (cwd E) (workspace E w)).
Local Abbreviation target := (PosixPath.join (workspace E w) "output.pdf").

Lemma target_key :
  PosixPath.key (cwd E) target = (ws ++ ["output.pdf"])%list.
Proof.
  apply key_join_plain; [apply Hfresh | reflexivity].
Qed.

Lemma target_opens :
  fs_open_wb (fs (entered E w)) (PosixPath.key (cwd E) target)
  = Some (fs_put (fs (entered E w)) (PosixPath.key (cwd E) target) (File "")).
Proof.
  rewrite target_key. unfold fs_open_wb.
  destruct (ws ++ ["output.pdf"])%list as [|x l] eqn:Hk.
  { now destruct ws. }
  rewrite <- Hk, removelast_last.
  assert (Hd : is_dir (fs (entered E w)) ws = true).
  { unfold is_dir. destruct ws as [|y l'] eqn:Hws; [reflexivity|].
    unfold entered. cbn [fs]. unfold fs_mkdir. fold ws. rewrite Hws.
    now rewrite fs_lookup_put_same. }
  assert (Hf : is_dir (fs (entered E w)) (ws ++ ["output.pdf"]) = false).
  { unfold is_dir. rewrite Hk, <- Hk.
    unfold entered. cbn [fs]. unfold fs_mkdir. fold ws.
    rewrite fs_lookup_put_other.
    - destruct Hfresh as [_ Hnone]. fold ws in Hnone.
      now rewrite (Hnone _ (is_prefix_app ws ["output.pdf"])).
    - intros Heq. apply (f_equal (@List.length string)) in Heq.
      rewrite length_app in Heq. simpl in Heq. lia. }
  now rewrite Hd, Hf.
Qed.


End FreshWorkspace.

(* ================================================================= *)
(** ** The runs of [render_pdf_url] *)

Ltac run_get Hurl :=
  unfold render_pdf_url; rewrite Hurl;
  unfold with_TemporaryDirectory; cbv zeta; rewrite bind_run;
  unfold new_HTML, bind, emit, get_fs, raise, ret; cbn [fs log].

Section GetRuns.
Variables (E : Env) (request : Request) (w : World) (url : string).
Hypothesis Hurl : query_getone "url" (query request) = Some url.

Local Abbreviation target := (PosixPath.join (workspace E w) "output.pdf").

Lemma render_pdf_url_html_raises (e : exn) :
  HTML_init (engine E) (get_doc url) (fs (entered E w)) = Some e ->
  render_pdf_url E request w
  = (inl e, leave E w (add_log (entered E w) [NewHTML (get_doc url)])).
Proof.
  intros Hh. run_get Hurl. unfold get_doc, entered in Hh. cbn [fs] in Hh.
  fold (workspace E w). rewrite Hh. reflexivity.
Qed.

Lemma render_pdf_url_write_raises (e : exn) :
  HTML_init (engine E) (get_doc url) (fs (entered E w)) = None ->
  write_pdf (engine E) (get_doc url) [] [] (fs (entered E w)) = inl e ->
  render_pdf_url E request w
  = (inr (text_response 500 "PDF generation failed."),
     leave E w (add_log (entered E w)
                  [NewHTML (get_doc url);
                   WritePdf (get_doc url) [] [] target;
                   LogException "PDF generation failed" e])).
Proof.
  intros Hh Hw. run_get Hurl.
  unfold get_doc, entered in Hh, Hw. cbn [fs] in Hh, Hw.
  fold (workspace E w). rewrite Hh.
  unfold try_except_else, call_write_pdf, bind, emit, get_fs, raise, ret.
  cbn [fs log]. rewrite Hw.
  unfold leave, add_log, entered. cbn [fs log].
  rewrite <- ?app_assoc. reflexivity.
Qed.




End GetRuns.

(* ================================================================= *)
(** ** The claims on the handlers *)

(** C6. Take a multipart request none of whose parts is named [html]. The
    engine is not called while it is served. When the loop over the parts
    reaches the end of the body, the answer is the response of status 400
    and body [No html file provided.]; when staging a part raises, that
    exception leaves the handler instead. *)
Theorem missing_html_is_400 (E : Env) (request : Request) (w : World) :
  content_type request = "multipart/form-data" ->
  (forall part, In part (parts request) -> name part <> Some "html") ->
  engine_calls (log (snd (render_pdf E request w))) = engine_calls (log w)
  /\ match fst (staged E request w) with
     | inr _ => fst (render_pdf E request w)
                = inr (mkResponse 400 [] "No html file provided.")
     | inl e => fst (render_pdf E request w) = inl e
     end.
Proof.
  intros Hct Hno.
  destruct (staged E request w) as [[e|fd] w2] eqn:Hst.
  - rewrite (render_pdf_staging_raises E request w Hct e w2 Hst).
    split; [|reflexivity].
    unfold staged in Hst. apply ingest_log in Hst.
    unfold entered in Hst. cbn [log] in Hst.
    unfold leave. calls_done Hst.
  - assert (Hg : dict_get "html" fd = None).
    { destruct (dict_get "html" fd) as [v|] eqn:Hg; [|reflexivity].
      unfold staged in Hst.
      destruct (ingest_origin _ _ _ _ _ _ _ _ _ Hst Hg)
        as [Hold | [part [fn [Hin [Hn _]]]]]; [discriminate Hold|].
      now apply Hno in Hin. }
    rewrite (render_pdf_no_html E request w Hct fd w2 Hst Hg).
    split; [|reflexivity].
    unfold staged in Hst. apply ingest_log in Hst.
    unfold entered in Hst. cbn [log] in Hst.
    unfold leave, add_log. calls_done Hst.
Qed.

(** A body with only a style sheet: 400, the engine untouched. *)
Lemma missing_html_witness :
  engine_calls
    (log (snd (render_pdf env_ok
                 (multipart [mkPart (Some "css") (Some "style.css") ["p{}"; ""]])
                 world0)))
  = []
  /\ fst (render_pdf env_ok
            (multipart [mkPart (Some "css") (Some "style.css") ["p{}"; ""]])
            world0)
     = inr (mkResponse 400 [] "No html file provided.").
Proof.
  apply (missing_html_is_400 env_ok
           (multipart [mkPart (Some "css") (Some "style.css") ["p{}"; ""]])
           world0).
  - reflexivity.
  - intros part [<- | []]. discriminate.
Defined.

(** C7 fails on the code. The document and the style sheet are built two
    statements above the [try] block. When the engine cannot load the page
    a GET names, or the document or style sheet a POST brought, the
    exception of [HTML(...)] or [CSS(...)] leaves the handler: the response
    of status 500 and body [PDF generation failed.] is not built and
    nothing is logged; the run consists of making the workspace, the call
    that failed, and the removal of the workspace. *)
Theorem load_failure_is_not_answered_500 :
  render_pdf_url env_unreadable
    (get_request [("url", "http://unreachable.example/")]) world0
  = (inl (OSError "cannot read the document"),
     mkWorld [(["tmp"], Dir)]
       [Mkdtemp "/tmp/tmpk3x9q";
        NewHTML (mkHTML (HtmlGuess "http://unreachable.example/") DefaultFetcher);
        Cleanup "/tmp/tmpk3x9q"])
  /\ fst (render_pdf env_unreadable
            (multipart [mkPart (Some "html") (Some "doc.html") ["<p>"; ""]]) world0)
     = inl (OSError "cannot read the document")
  /\ fst (render_pdf env_no_css
            (multipart [mkPart (Some "html") (Some "doc.html") ["<p>"; ""];
                        mkPart (Some "css") (Some "s.css") ["p{}"; ""]]) world0)
     = inl (OSError "cannot read the style sheet")
  /\ fst (render_pdf_url env_unreadable
            (get_request [("url", "http://unreachable.example/")]) world0)
     <> inr (mkResponse 500 [] "PDF generation failed.").
Proof.
  vm_compute. repeat split; try reflexivity. discriminate.
Qed.

(** X12. Whatever exception [write_pdf] raises, in either handler, the
    answer is the response of status 500 and body [PDF generation failed.],
    the same for every exception: the exception is logged on the server and
    nothing of it reaches the response. *)
Theorem renderer_failure_is_500 (E : Env) (request : Request) (w : World) (e : exn) :
  (forall fd w2 html_path,
      content_type request = "multipart/form-data" ->
      staged E request w = (inr fd, w2) ->
      dict_get "html" fd = Some html_path ->
      HTML_init (engine E) (post_doc fd html_path) (fs w2) = None ->
      CSS_init (engine E) (post_sheet fd) (fs w2) = None ->
      write_pdf (engine E) (post_doc fd html_path) [post_sheet fd]
                (attachments_of fd) (fs w2) = inl e ->
      fst (render_pdf E request w)
      = inr (mkResponse 500 [] "PDF generation failed.")
      /\ In (LogException "PDF generation failed" e)
            (log (snd (render_pdf E request w))))
  /\
  (forall url,
      query_getone "url" (query request) = Some url ->
      HTML_init (engine E) (get_doc url) (fs (entered E w)) = None ->
      write_pdf (engine E) (get_doc url) [] [] (fs (entered E w)) = inl e ->
      fst (render_pdf_url E request w)
      = inr (mkResponse 500 [] "PDF generation failed.")
      /\ In (LogException "PDF generation failed" e)
            (log (snd (render_pdf_url E request w)))).
Proof.
  split.
  - intros fd w2 html_path Hct Hst Hg Hh Hc Hw.
    rewrite (render_pdf_write_raises E request w Hct fd w2 html_path e
               Hst Hg Hh Hc Hw).
    split; [reflexivity|].
    unfold leave, add_log. cbn [fs log snd].
    rewrite !in_app_iff. left. right. simpl. auto.
  - intros url Hurl Hh Hw.
    rewrite (render_pdf_url_write_raises E request w url Hurl e Hh Hw).
    split; [reflexivity|].
    unfold leave, add_log. cbn [fs log snd].
    rewrite !in_app_iff. left. right. simpl. auto.
Qed.

(** With an engine that cannot parse the document, both handlers answer the
    same 500. *)
Lemma renderer_failure_witness :
  fst (render_pdf env_failing
         (multipart [mkPart (Some "html") (Some "doc.html") ["<p>"; ""]]) world0)
  = inr (mkResponse 500 [] "PDF generation failed.")
  /\ fst (render_pdf_url env_failing
            (get_request [("url", "http://example.org/")]) world0)
     = inr (mkResponse 500 [] "PDF generation failed.").
Proof.
  split.
  - eapply (proj1 (renderer_failure_is_500 env_failing
                     (multipart [mkPart (Some "html") (Some "doc.html") ["<p>"; ""]])
                     world0 (EngineError "cannot parse the document"))).
    + reflexivity.
    + vm_compute. reflexivity.
    + reflexivity.
    + reflexivity.
    + reflexivity.
    + reflexivity.
  - eapply (proj2 (renderer_failure_is_500 env_failing
                     (get_request [("url", "http://example.org/")])
                     world0 (EngineError "cannot parse the document"))).
    + reflexivity.
    + reflexivity.
    + reflexivity.
Defined.

(** C8. Take a multipart request with a part named [html] whose staging
    completes. The document handed to the engine is the staged [html] path.
    The one style sheet handed to [write_pdf] is [post_sheet]: with no part
    named [css] it is the built-in text, page size A4 and margins 2cm and
    2.5cm, given as a string and not as a file; with a part named [css] it
    is the file staged for such a part, its declared name joined to the
    workspace. *)
Theorem style_input_default_or_uploaded (E : Env) (request : Request) (w : World)
    (fd : dict string) (w2 : World) :
  content_type request = "multipart/form-data" ->
  staged E request w = (inr fd, w2) ->
  (exists part, In part (parts request) /\ name part = Some "html") ->
  exists html_path,
    dict_get "html" fd = Some html_path
    /\ (HTML_init (engine E) (post_doc fd html_path) (fs w2) = None ->
        CSS_init (engine E) (post_sheet fd) (fs w2) = None ->
        engine_calls (log (snd (render_pdf E request w)))
        = (engine_calls (log w)
           ++ [NewHTML (post_doc fd html_path);
               NewCSS (post_sheet fd);
               WritePdf (post_doc fd html_path) [post_sheet fd]
                        (attachments_of fd)
                        (PosixPath.join (workspace E w) "output.pdf")])%list)
    /\ ((forall part, In part (parts request) -> name part <> Some "css") ->
        post_sheet fd = CssString "@page { size: A4; margin: 2cm 2.5cm; }")
    /\ ((exists part, In part (parts request) /\ name part = Some "css") ->
        exists part fn,
          In part (parts request) /\ name part = Some "css"
          /\ filename part = Some fn
          /\ post_sheet fd
             = CssFilename (PosixPath.join (workspace E w) fn)
                           (Restricted (dict_values fd))).
Proof.
  intros Hct Hst Hhtml.
  assert (Hi := Hst). unfold staged in Hi.
  destruct (dict_get "html" fd) as [html_path|] eqn:Hg.
  2:{ exfalso. apply (ingest_present _ _ _ "html" _ _ _ _ Hi eq_refl);
        [now right | exact Hg]. }
  exists html_path. split; [reflexivity|]. split; [|split].
  - intros Hh Hc.
    apply (render_pdf_engine_calls E request w Hct fd w2 html_path Hst Hg Hh Hc).
  - intros Hno. unfold post_sheet.
    destruct (dict_get "css" fd) as [v|] eqn:Hcss; [|reflexivity].
    destruct (ingest_origin _ _ _ _ _ _ _ _ _ Hi Hcss)
      as [Hold | [part [fn [Hin [Hn _]]]]]; [discriminate Hold|].
    now apply Hno in Hin.
  - intros Hcss. unfold post_sheet.
    destruct (dict_get "css" fd) as [v|] eqn:Hgc.
    + destruct (ingest_origin _ _ _ _ _ _ _ _ _ Hi Hgc)
        as [Hold | [part [fn [Hin [Hn [Hf ->]]]]]]; [discriminate Hold|].
      exists part, fn. auto.
    + exfalso. apply (ingest_present _ _ _ "css" _ _ _ _ Hi eq_refl);
        [now right | exact Hgc].
Qed.

(** A document alone is rendered with the built-in style; with a style
    sheet uploaded as [print.css], with that file. *)
Lemma style_input_witness :
  post_sheet [("html", "/tmp/tmpk3x9q/doc.html")]
  = CssString "@page { size: A4; margin: 2cm 2.5cm; }"
  /\ exists part fn,
       In part [mkPart (Some "html") (Some "doc.html") ["<p>"; ""];
                mkPart (Some "css") (Some "print.css") ["p{}"; ""]]
       /\ name part = Some "css" /\ filename part = Some fn
       /\ post_sheet [("html", "/tmp/tmpk3x9q/doc.html");
                      ("css", "/tmp/tmpk3x9q/print.css")]
          = CssFilename (PosixPath.join "/tmp/tmpk3x9q" fn)
              (Restricted ["/tmp/tmpk3x9q/doc.html"; "/tmp/tmpk3x9q/print.css"]).
Proof.
  split.
  - edestruct (style_input_default_or_uploaded env_ok
                 (multipart [mkPart (Some "html") (Some "doc.html") ["<p>"; ""]])
                 world0) as [hp [_ [_ [Hdefault _]]]].
    + reflexivity.
    + vm_compute. reflexivity.
    + eexists. split; [left; reflexivity | reflexivity].
    + apply Hdefault. intros part [<- | []]. discriminate.
  - edestruct (style_input_default_or_uploaded env_ok
                 (multipart [mkPart (Some "html") (Some "doc.html") ["<p>"; ""];
                             mkPart (Some "css") (Some "print.css") ["p{}"; ""]])
                 world0) as [hp [_ [_ [_ Hcss]]]].
    + reflexivity.
    + vm_compute. reflexivity.
    + eexists. split; [left; reflexivity | reflexivity].
    + apply Hcss. eexists. split; [right; left; reflexivity | reflexivity].
Defined.


Lemma world0_fresh : fresh_workspace env_ok world0.
Proof.
  split; [reflexivity|].
  intros k Hk.
  change (PosixPath.key (cwd env_ok) (workspace env_ok world0))
    with ["tmp"; "tmpk3x9q"] in Hk.
  change (fs world0) with [(["tmp"], Dir)].
  destruct k as [|x [|y l]]; cbn [is_prefix] in Hk.
  - discriminate Hk.
  - rewrite andb_false_r in Hk. discriminate Hk.
  - cbn [fs_lookup key_eqb]. now rewrite andb_false_r.
Qed.


(* ================================================================= *)
(** ** Where parts are staged *)

(** A declared name of one plain component is staged right below an
    absolute workspace. *)
Lemma plain_filename_staged_inside (cwd ws fn : string) :
  PosixPath.isabs ws = true -> plain_name fn = true ->
  lies_inside (PosixPath.key cwd ws) (PosixPath.key cwd (PosixPath.join ws fn))
  = true.
Proof.
  intros Habs Hfn. rewrite (key_join_plain cwd ws fn Habs Hfn).
  unfold lies_inside. rewrite is_prefix_app. simpl.
  apply negb_true_iff, key_eqb_neq.
  intros Heq. apply (f_equal (@List.length string)) in Heq.
  rewrite length_app in Heq. simpl in Heq. lia.
Qed.

(** C2 fails on the code. [save_part_to_file] joins the declared name to the
    workspace as it comes. A part declared as [../evil.html] is staged at
    [/tmp/evil.html], beside the workspace and not inside it, and the file
    is still there when the request is done; a part declared under the
    absolute name [/tmp/evil.css] is staged at that very path. *)
Theorem declared_filename_escapes_workspace :
  let request :=
    multipart [mkPart (Some "html") (Some "../evil.html") ["<p>"; "hi</p>"; ""];
               mkPart (Some "css") (Some "/tmp/evil.css") ["p{}"; ""]] in
  let ws := PosixPath.key (cwd env_ok) (workspace env_ok world0) in
  fst (staged env_ok request world0)
  = inr [("html", "/tmp/tmpk3x9q/../evil.html"); ("css", "/tmp/evil.css")]
  /\ ws = ["tmp"; "tmpk3x9q"]
  /\ PosixPath.key (cwd env_ok) "/tmp/tmpk3x9q/../evil.html" = ["tmp"; "evil.html"]
  /\ lies_inside ws ["tmp"; "evil.html"] = false
  /\ PosixPath.key (cwd env_ok) "/tmp/evil.css" = ["tmp"; "evil.css"]
  /\ lies_inside ws ["tmp"; "evil.css"] = false
  /\ fs_read (fs (snd (render_pdf env_ok request world0))) ["tmp"; "evil.html"]
     = Some "<p>hi</p>"
  /\ fs_read (fs (snd (render_pdf env_ok request world0))) ["tmp"; "evil.css"]
     = Some "p{}".
Proof.
  vm_compute. repeat split; reflexivity.
Qed.

(* ================================================================= *)
(** ** No external resource on the multipart path *)

Lemma post_sheet_sandboxed (fd : dict string) : sheet_sandboxed (post_sheet fd) = true.
Proof.
  unfold post_sheet. destruct (dict_get "css" fd); reflexivity.
Qed.

(** Every object [render_pdf] hands to the engine is sandboxed, however the
    request ends. *)
Lemma render_pdf_calls_sandboxed (E : Env) (request : Request) (w : World) :
  exists calls,
    engine_calls (log (snd (render_pdf E request w)))
    = (engine_calls (log w) ++ calls)%list
    /\ forallb call_sandboxed calls = true.
Proof.
  destruct (content_type request =? "multipart/form-data") eqn:Hct.
  2:{ exists []. split; [|reflexivity].
      unfold render_pdf. rewrite Hct. unfold bind, emit, ret. cbn [negb fs log snd].
      rewrite engine_calls_app, app_nil_r. simpl. now rewrite app_nil_r. }
  apply String.eqb_eq in Hct.
  destruct (staged E request w) as [[e|fd] w2] eqn:Hst.
  { exists []. split; [|reflexivity].
    rewrite (render_pdf_staging_raises E request w Hct e w2 Hst).
    unfold staged in Hst. apply ingest_log in Hst.
    unfold entered in Hst. cbn [log] in Hst.
    unfold leave. calls_done Hst. }
  assert (Hl := Hst). unfold staged in Hl. apply ingest_log in Hl.
  unfold entered in Hl. cbn [log] in Hl.
  destruct (dict_get "html" fd) as [html_path|] eqn:Hg.
  2:{ exists []. split; [|reflexivity].
      rewrite (render_pdf_no_html E request w Hct fd w2 Hst Hg).
      unfold leave, add_log. calls_done Hl. }
  destruct (HTML_init (engine E) (post_doc fd html_path) (fs w2)) as [e|] eqn:Hh.
  { exists [NewHTML (post_doc fd html_path)]. split; [|reflexivity].
    rewrite (render_pdf_html_raises E request w Hct fd w2 html_path e Hst Hg Hh).
    unfold leave, add_log. calls_done Hl. }
  destruct (CSS_init (engine E) (post_sheet fd) (fs w2)) as [e|] eqn:Hc.
  { exists [NewHTML (post_doc fd html_path); NewCSS (post_sheet fd)]. split.
    - rewrite (render_pdf_css_raises E request w Hct fd w2 html_path e
                 Hst Hg Hh Hc).
      unfold leave, add_log. calls_done Hl.
    - cbn [forallb call_sandboxed]. now rewrite post_sheet_sandboxed. }
  eexists. split.
  - apply (render_pdf_engine_calls E request w Hct fd w2 html_path Hst Hg Hh Hc).
  - cbn [forallb call_sandboxed]. now rewrite post_sheet_sandboxed.
Qed.

(** C5. A locator whose scheme is not [data], and is neither empty nor
    [file] or comes with an empty path, is refused with the error for
    external resources; whenever a locator is handed to the default loader
    its scheme is [data], empty or [file]; and every document and style
    sheet the multipart handler gives the engine carries such a fetcher, the
    built-in style apart, which names no resource. *)
Theorem external_resources_rejected (urlparse : string -> ParseResult)
    (cwd : string) (valid_paths : list string) (url : string)
    (E : Env) (request : Request) (w : World) :
  (scheme (urlparse url) <> "data" ->
   ~ In (scheme (urlparse url)) [""; "file"] \/ path (urlparse url) = "" ->
   URLFetcher_call urlparse cwd valid_paths url
   = Reject (ValueError "External resources are not allowed"))
  /\
  (forall u, URLFetcher_call urlparse cwd valid_paths url = Delegate u ->
     u = url /\ In (scheme (urlparse url)) ["data"; ""; "file"])
  /\
  (exists calls,
     engine_calls (log (snd (render_pdf E request w)))
     = (engine_calls (log w) ++ calls)%list
     /\ forallb call_sandboxed calls = true).
Proof.
  split; [|split].
  - apply URLFetcher_external.
  - apply URLFetcher_external.
  - apply render_pdf_calls_sandboxed.
Qed.

(** A network locator and a [file:] locator without a path are refused, even
    when the allowed paths hold what they name. *)
Lemma external_resources_witness :
  URLFetcher_call urlparse_ref "/srv/app" ["/x.png"] "http://evil.example/x.png"
  = Reject (ValueError "External resources are not allowed")
  /\ URLFetcher_call urlparse_ref "/srv/app" ["/srv/app"] "file:"
     = Reject (ValueError "External resources are not allowed").
Proof.
  split.
  - apply (proj1 (external_resources_rejected urlparse_ref "/srv/app" ["/x.png"]
                    "http://evil.example/x.png" env_ok (multipart []) world0)).
    + discriminate.
    + left. simpl. intros [H | [H | H]]; [discriminate H | discriminate H | exact H].
  - apply (proj1 (external_resources_rejected urlparse_ref "/srv/app" ["/srv/app"]
                    "file:" env_ok (multipart []) world0)).
    + discriminate.
    + right. reflexivity.
Defined.

(* ================================================================= *)
(** ** Further properties: streaming *)



(** Joining a plain name to an absolute directory and taking the base name
    gives the name back. *)
Lemma basename_join_plain (td b : string) :
  PosixPath.isabs td = true -> plain_name b = true ->
  PosixPath.basename (PosixPath.join td b) = b.
Proof.
  intros Habs Hb. unfold PosixPath.basename.
  destruct (split_join td b Habs Hb) as [comps [-> _]].
  apply last_last.
Qed.


(* ================================================================= *)
(** ** Further properties: what staging does to the files *)

Lemma fs_open_wb_inv (f f' : FS) (k : list string) :
  fs_open_wb f k = Some f' ->
  f' = fs_put f k (File "") /\ k <> []
  /\ is_dir f (removelast k) = true /\ is_dir f k = false.
Proof.
  unfold fs_open_wb. destruct k as [|x l]; [discriminate|].
  destruct (is_dir f (removelast (x :: l))) eqn:Hp; [|discriminate].
  destruct (is_dir f (x :: l)) eqn:Hd; [discriminate|].
  simpl. intros [= <-]. repeat split. discriminate.
Qed.

Lemma fs_open_wb_some (f : FS) (k : list string) :
  k <> [] -> is_dir f (removelast k) = true -> is_dir f k = false ->
  fs_open_wb f k = Some (fs_put f k (File "")).
Proof.
  intros Hk Hp Hd. unfold fs_open_wb. destruct k as [|x l]; [congruence|].
  now rewrite Hp, Hd.
Qed.

Lemma fs_append_lookup_same (f : FS) (k : list string) (c chunk : string) :
  fs_lookup f k = Some (File c) ->
  fs_lookup (fs_append f k chunk) k = Some (File (c ++ chunk)).
Proof.
  intros H. unfold fs_append. rewrite H. apply fs_lookup_put_same.
Qed.

Lemma fs_append_lookup_other (f : FS) (k k' : list string) (chunk : string) :
  k <> k' -> fs_lookup (fs_append f k chunk) k' = fs_lookup f k'.
Proof.
  intros Hn. unfold fs_append.
  destruct (fs_lookup f k) as [[|c]|]; try reflexivity.
  now apply fs_lookup_put_other.
Qed.

Lemma write_chunks_lookup_same (k : list string) (cs : list string) :
  forall (f : FS) (c : string),
    fs_lookup f k = Some (File c) ->
    fs_lookup (write_chunks k cs f) k = Some (File (c ++ received cs)).
Proof.
  induction cs as [|chunk cs IH]; intros f c H; simpl.
  - now rewrite append_empty_r.
  - destruct (chunk =? ""); [now rewrite append_empty_r|].
    rewrite (IH _ (c ++ chunk)); [now rewrite append_assoc|].
    now apply fs_append_lookup_same.
Qed.

Lemma write_chunks_lookup_other (k k' : list string) (cs : list string) :
  k <> k' -> forall f, fs_lookup (write_chunks k cs f) k' = fs_lookup f k'.
Proof.
  intros Hn. induction cs as [|chunk cs IH]; intros f; simpl; [reflexivity|].
  destruct (chunk =? ""); [reflexivity|].
  rewrite IH. now apply fs_append_lookup_other.
Qed.

(** A walk that reaches a file from clean components has followed the
    components [normpath] keeps. *)
Lemma fs_walk_key (f : FS) (init : nat) (comps : list string) :
  init <> 0 ->
  forall cur k,
    Forall clean_comp cur ->
    fs_walk f cur comps = Some k ->
    k = fold_left (PosixPath.norm_step init) comps cur.
Proof.
  intros Hinit. induction comps as [|c rest IH]; intros cur k Hcur; simpl;
    [discriminate|].
  unfold PosixPath.norm_step at 2.
  destruct ((c =? "") || (c =? ".")) eqn:Hskip; [now apply IH|].
  apply orb_false_iff in Hskip as [He Hd].
  destruct (c =? "..") eqn:Hdd.
  - apply Nat.eqb_neq in Hinit. rewrite Hinit. simpl.
    pose proof (last_clean cur Hcur) as Hl. apply String.eqb_neq in Hl.
    rewrite Hl. apply IH. now apply removelast_clean.
  - simpl.
    assert (Hnew : Forall clean_comp (cur ++ [c])).
    { apply Forall_app. split; [assumption|].
      apply String.eqb_neq in He, Hd, Hdd.
      constructor; [repeat split; assumption | constructor]. }
    destruct rest as [|c' rest'].
    + now intros [= <-].
    + destruct (is_dir f (cur ++ [c])); [|discriminate]. now apply IH.
Qed.

(** A file located through an absolute path is stored under the key of
    that path. *)
Lemma fs_locate_key (f : FS) (cwd path : string) (k : list string) :
  PosixPath.isabs (if PosixPath.isabs path then path
                   else PosixPath.join cwd path) = true ->
  fs_locate f cwd path = Some k -> k = PosixPath.key cwd path.
Proof.
  intros Habs Hk. unfold fs_locate in Hk. unfold PosixPath.key, PosixPath.norm_comps.
  apply (fs_walk_key f _ _) with (cur := []); [|constructor|exact Hk].
  destruct (initial_slashes_abs _ Habs) as [-> | ->]; discriminate.
Qed.





(** What a run of [save_part_to_file] can have done: nothing, or one file
    written where the joined name leads, which was no directory. *)
Lemma save_part_to_file_fs (E : Env) (part : Part) (d : string)
    (w w' : World) (r : exn + string) :
  save_part_to_file E part d w = (r, w') ->
  fs w' = fs w \/
  exists fn k, filename part = Some fn /\
    fs_locate (fs w) (cwd E) (PosixPath.join d fn) = Some k /\
    k <> [] /\ is_dir (fs w) k = false /\
    fs w' = write_chunks k (chunks part) (fs_put (fs w) k (File "")).
Proof.
  unfold save_part_to_file.
  destruct (filename part) as [fn|]; [|unfold raise; intros [= <- <-]; now left].
  unfold bind, get_fs, put_fs, ret, raise.
  destruct (fs_locate (fs w) _ _) as [k|] eqn:Hloc;
    [|intros [= <- <-]; now left].
  destruct (fs_open_wb (fs w) k) as [f'|] eqn:Ho; intros [= <- <-]; [|now left].
  right. exists fn, k. split; [reflexivity|]. split; [exact Hloc|].
  destruct (fs_open_wb_inv _ _ _ Ho) as [-> [Hk [_ Hd]]]. cbn [fs]. auto.
Qed.

Lemma is_dir_file_written (f : FS) (k k' : list string) (cs : list string) :
  k <> [] -> is_dir f k = false ->
  is_dir (write_chunks k cs (fs_put f k (File ""))) k' = is_dir f k'.
Proof.
  intros Hk Hd. destruct k' as [|x l]; [reflexivity|].
  unfold is_dir at 1 2.
  destruct (list_eq_dec string_dec k (x :: l)) as [<-|Hne].
  - rewrite (write_chunks_lookup_same k cs _ "" (fs_lookup_put_same _ _ _)).
    unfold is_dir in Hd. destruct k; [congruence|].
    destruct (fs_lookup f (s :: k)) as [[|c]|]; congruence.
  - rewrite (write_chunks_lookup_other k (x :: l) cs Hne).
    now rewrite fs_lookup_put_other.
Qed.

(** Staging never turns a directory into a file or makes a new directory. *)
Lemma save_part_to_file_is_dir (E : Env) (part : Part) (d : string)
    (w w' : World) (r : exn + string) (k' : list string) :
  save_part_to_file E part d w = (r, w') ->
  is_dir (fs w') k' = is_dir (fs w) k'.
Proof.
  intros H. destruct (save_part_to_file_fs _ _ _ _ _ _ H)
    as [-> | [fn [k [_ [_ [Hk [Hd ->]]]]]]]; [reflexivity|].
  now apply is_dir_file_written.
Qed.

Lemma ingest_is_dir (E : Env) (d : string) (ps : list Part) (k' : list string) :
  forall (fd : dict string) (w w' : World) (r : exn + dict string),
    ingest E d ps fd w = (r, w') -> is_dir (fs w') k' = is_dir (fs w) k'.
Proof.
  induction ps as [|part ps IH]; intros fd w w' r; simpl.
  - unfold ret. now intros [= <- <-].
  - destruct (name part) as [n|]; [|unfold raise; now intros [= <- <-]].
    destruct (accepted n); [|apply IH].
    rewrite bind_run.
    destruct (save_part_to_file E part d w) as [[e|p] w1] eqn:Hs.
    + intros [= <- <-]. now apply (save_part_to_file_is_dir _ _ _ _ _ _ _ Hs).
    + intros H. apply IH in H. rewrite H.
      now apply (save_part_to_file_is_dir _ _ _ _ _ _ _ Hs).
Qed.

Lemma is_prefix_self_app_neq (d l k : list string) :
  is_prefix d k = false -> (d ++ l)%list <> k.
Proof.
  intros Hk Heq. subst k. now rewrite is_prefix_app in Hk.
Qed.

(** With plain names, the loop touches nothing outside the workspace. *)
Lemma ingest_outside (E : Env) (d : string) (ps : list Part) (k' : list string) :
  PosixPath.isabs d = true ->
  is_prefix (PosixPath.key (cwd E) d) k' = false ->
  plain_parts ps ->
  forall (fd : dict string) (w w' : World) (r : exn + dict string),
    ingest E d ps fd w = (r, w') -> fs_lookup (fs w') k' = fs_lookup (fs w) k'.
Proof.
  intros Habs Hout. induction ps as [|part ps IH]; intros Hplain fd w w' r; simpl.
  - unfold ret. now intros [= <- <-].
  - assert (Hrest : plain_parts ps).
    { intros p n Hin. apply Hplain. now right. }
    destruct (name part) as [n|] eqn:Hn; [|unfold raise; now intros [= <- <-]].
    destruct (accepted n) eqn:Ha; [|now apply IH].
    destruct (Hplain part n (or_introl eq_refl) Hn Ha) as [fn [Hf Hpl]].
    rewrite bind_run.
    destruct (save_part_to_file E part d w) as [[e|p] w1] eqn:Hs.
    + intros [= <- <-].
      destruct (save_part_to_file_fs _ _ _ _ _ _ Hs)
        as [-> | [fn' [k [Hf' [Hloc [_ [_ ->]]]]]]]; [reflexivity|].
      assert (fn' = fn) by congruence. subst fn'.
      apply fs_locate_key in Hloc;
        [|now rewrite (join_isabs d fn Habs Hpl), (join_isabs d fn Habs Hpl)].
      subst k. rewrite (key_join_plain (cwd E) d fn Habs Hpl).
      rewrite write_chunks_lookup_other by now apply is_prefix_self_app_neq.
      apply fs_lookup_put_other. now apply is_prefix_self_app_neq.
    + intros H. rewrite (IH Hrest _ _ _ _ H).
      destruct (save_part_to_file_fs _ _ _ _ _ _ Hs)
        as [-> | [fn' [k [Hf' [Hloc [_ [_ ->]]]]]]]; [reflexivity|].
      assert (fn' = fn) by congruence. subst fn'.
      apply fs_locate_key in Hloc;
        [|now rewrite (join_isabs d fn Habs Hpl), (join_isabs d fn Habs Hpl)].
      subst k. rewrite (key_join_plain (cwd E) d fn Habs Hpl).
      rewrite write_chunks_lookup_other by now apply is_prefix_self_app_neq.
      apply fs_lookup_put_other. now apply is_prefix_self_app_neq.
Qed.



(** Declared names that lead through a directory that is not there, or
    that end in a slash, are refused by [open], as are names that climb out
    of the root of what exists. *)
Lemma save_part_to_file_refuses :
  fst (save_part_to_file env_ok
         (mkPart (Some "html") (Some "nodir/../doc.html") ["<p>"; ""])
         "/tmp" world0)
  = inl (OSError "cannot open the file")
  /\ fst (save_part_to_file env_ok
            (mkPart (Some "html") (Some "doc.html/") ["<p>"; ""])
            "/tmp" world0)
     = inl (OSError "cannot open the file")
  /\ fst (save_part_to_file env_ok
            (mkPart (Some "html") (Some "sub/doc.html") ["<p>"; ""])
            "/tmp" world0)
     = inl (OSError "cannot open the file").
Proof.
  vm_compute. repeat split; reflexivity.
Qed.

(* ================================================================= *)
(** ** Further properties: the loop over the parts *)

Lemma ingest_app (E : Env) (d : string) (ps1 ps2 : list Part) :
  forall (fd : dict string) (w : World),
    ingest E d (ps1 ++ ps2) fd w
    = match ingest E d ps1 fd w with
      | (inl e, w1) => (inl e, w1)
      | (inr fd1, w1) => ingest E d ps2 fd1 w1
      end.
Proof.
  induction ps1 as [|part ps1 IH]; intros fd w; simpl; [reflexivity|].
  destruct (name part) as [n|]; [|reflexivity].
  destruct (accepted n); [|apply IH].
  rewrite !bind_run.
  destruct (save_part_to_file E part d w) as [[e|p] w1]; [reflexivity | apply IH].
Qed.

(** A name no part of the body carries keeps its entry. *)
Lemma ingest_keeps (E : Env) (d : string) (ps : list Part) (k : string) :
  (forall part, In part ps -> name part <> Some k) ->
  forall (fd fd' : dict string) (w w' : World),
    ingest E d ps fd w = (inr fd', w') -> dict_get k fd' = dict_get k fd.
Proof.
  induction ps as [|part ps IH]; intros Hno fd fd' w w'; simpl.
  - unfold ret. now intros [= <- <-].
  - assert (Hrest : forall p, In p ps -> name p <> Some k).
    { intros p Hin. apply Hno. now right. }
    destruct (name part) as [n|] eqn:Hn; [|discriminate].
    destruct (accepted n); [|now apply IH].
    rewrite bind_run.
    destruct (save_part_to_file E part d w) as [[e|p] w1]; [discriminate|].
    intros H. rewrite (IH Hrest _ _ _ _ H).
    apply dict_get_set_other. intros ->. now apply (Hno part (or_introl eq_refl)).
Qed.

(** X3. When two parts carry the same name the later one wins: after a
    completed ingestion, the entry of a name is the staged path of the last
    part that carries it. *)
Theorem last_part_of_a_name_wins (E : Env) (d : string) (ps1 ps2 : list Part)
    (part : Part) (n fn : string) (fd fd' : dict string) (w w' : World) :
  name part = Some n -> accepted n = true -> filename part = Some fn ->
  (forall later, In later ps2 -> name later <> Some n) ->
  ingest E d (ps1 ++ part :: ps2) fd w = (inr fd', w') ->
  dict_get n fd' = Some (PosixPath.join d fn).
Proof.
  intros Hn Ha Hf Hlater. rewrite ingest_app.
  destruct (ingest E d ps1 fd w) as [[e|fd1] w1]; [discriminate|].
  simpl. rewrite Hn, Ha, bind_run.
  destruct (save_part_to_file E part d w1) as [[e|p] w2] eqn:Hs; [discriminate|].
  intros H. rewrite (ingest_keeps E d ps2 n Hlater _ _ _ _ H).
  rewrite dict_get_set_same.
  destruct (proj2 (save_part_to_file_inv _ _ _ _ _ _ Hs) p eq_refl) as [fn' [Hf' ->]].
  congruence.
Qed.

(** Two style sheets in one body: the second is the one used. *)
Lemma last_part_witness :
  dict_get "css"
    [("css", "/tmp/tmpk3x9q/second.css"); ("html", "/tmp/tmpk3x9q/doc.html")]
  = Some "/tmp/tmpk3x9q/second.css".
Proof.
  apply (last_part_of_a_name_wins env_ok "/tmp/tmpk3x9q"
           [mkPart (Some "css") (Some "first.css") ["a{}"; ""]]
           [mkPart (Some "html") (Some "doc.html") ["<p>"; ""]]
           (mkPart (Some "css") (Some "second.css") ["b{}"; ""])
           "css" "second.css" []
           [("css", "/tmp/tmpk3x9q/second.css"); ("html", "/tmp/tmpk3x9q/doc.html")]
           (entered env_ok world0)
           (snd (staged env_ok
                   (multipart [mkPart (Some "css") (Some "first.css") ["a{}"; ""];
                               mkPart (Some "css") (Some "second.css") ["b{}"; ""];
                               mkPart (Some "html") (Some "doc.html") ["<p>"; ""]])
                   world0))).
  - reflexivity.
  - reflexivity.
  - reflexivity.
  - intros later [<- | []]. discriminate.
  - vm_compute. reflexivity.
Defined.

(** X4. A part whose name is not [html], [css], [attachment.*] or [asset.*]
    is passed over without a trace: the handler answers a body with such a
    part exactly as it answers the body without it, and leaves the same
    world. *)
Theorem unknown_part_is_ignored (E : Env) (ct : string) (ps1 ps2 : list Part)
    (part : Part) (n : string) (q : list (string * string)) (w : World) :
  name part = Some n -> accepted n = false ->
  render_pdf E (mkRequest ct (ps1 ++ part :: ps2) q) w
  = render_pdf E (mkRequest ct (ps1 ++ ps2) q) w.
Proof.
  intros Hn Ha. unfold render_pdf. cbn [content_type parts].
  destruct (negb (ct =? "multipart/form-data")); [reflexivity|].
  unfold with_TemporaryDirectory. cbv zeta. rewrite !bind_run.
  rewrite !ingest_app.
  destruct (ingest E _ ps1 [] _) as [[e|fd1] w1]; [reflexivity|].
  simpl. now rewrite Hn, Ha.
Qed.

Lemma unknown_part_witness :
  render_pdf env_ok
    (multipart [mkPart (Some "html") (Some "doc.html") ["<p>"; ""];
                mkPart (Some "comment") (Some "../notes.txt") ["hello"; ""]])
    world0
  = render_pdf env_ok
      (multipart [mkPart (Some "html") (Some "doc.html") ["<p>"; ""]]) world0.
Proof.
  apply (unknown_part_is_ignored env_ok "multipart/form-data"
           [mkPart (Some "html") (Some "doc.html") ["<p>"; ""]] []
           (mkPart (Some "comment") (Some "../notes.txt") ["hello"; ""])
           "comment" [] world0); reflexivity.
Defined.

Lemma dict_set_absent {V} (k : string) (v : V) (d : dict V) :
  dict_get k d = None -> dict_set k v d = (d ++ [(k, v)])%list.
Proof.
  induction d as [|[k' v'] d IH]; simpl; [reflexivity|].
  destruct (k' =? k); [discriminate|]. intros H. now rewrite IH.
Qed.

Lemma dict_get_None_not_In {V} (k : string) (d : dict V) :
  ~ In k (map fst d) -> dict_get k d = None.
Proof.
  induction d as [|[k' v'] d IH]; simpl; [reflexivity|].
  intros H. destruct (String.eqb_spec k' k) as [->|Hne].
  - exfalso. apply H. now left.
  - apply IH. intros Hin. apply H. now right.
Qed.

Lemma ingest_distinct (E : Env) (d : string) (ps : list Part) :
  forall (fd fd' : dict string) (w w' : World),
    ingest E d ps fd w = (inr fd', w') ->
    NoDup (map fst fd ++ map fst (staged_entries d ps)) ->
    fd' = (fd ++ staged_entries d ps)%list.
Proof.
  induction ps as [|part ps IH]; intros fd fd' w w'; simpl.
  - unfold ret. intros [= <- <-] _. now rewrite app_nil_r.
  - destruct (name part) as [n|] eqn:Hn; [|discriminate].
    destruct (accepted n) eqn:Ha.
    + rewrite bind_run.
      destruct (save_part_to_file E part d w) as [[e|p] w1] eqn:Hs; [discriminate|].
      destruct (proj2 (save_part_to_file_inv _ _ _ _ _ _ Hs) p eq_refl)
        as [fn [Hf ->]].
      rewrite Hf. cbn [map fst]. intros H Hnd.
      assert (Hnone : dict_get n fd = None).
      { apply dict_get_None_not_In. intros Hin.
        apply NoDup_remove_2 in Hnd. apply Hnd.
        apply in_or_app. now left. }
      rewrite (dict_set_absent n _ fd Hnone) in H.
      rewrite (IH _ _ _ _ H).
      * now rewrite <- app_assoc.
      * rewrite map_app. cbn [map fst]. rewrite <- app_assoc. exact Hnd.
    + destruct (filename part); apply IH.
Qed.

(** X10. When the names of the staged parts are all different, a completed
    ingestion yields the mapping of each name to its staged path in the
    order of arrival; the attachments handed on are then the staged paths of
    the [attachment.*] parts, in that order, parts of other names left out. *)
Theorem distinct_names_keep_arrival_order (E : Env) (request : Request)
    (w w2 : World) (fd : dict string) :
  NoDup (map fst (staged_entries (workspace E w) (parts request))) ->
  staged E request w = (inr fd, w2) ->
  fd = staged_entries (workspace E w) (parts request)
  /\ attachments_of fd
     = map snd (filter (fun kv => startswith (fst kv) "attachment.")
                       (staged_entries (workspace E w) (parts request))).
Proof.
  intros Hnd Hst. unfold staged in Hst.
  pose proof (ingest_distinct E _ _ _ _ _ _ Hst Hnd) as ->.
  split; reflexivity.
Qed.

Lemma distinct_names_witness :
  attachments_of
    [("attachment.b", "/tmp/tmpk3x9q/b.bin"); ("html", "/tmp/tmpk3x9q/doc.html");
     ("asset.logo", "/tmp/tmpk3x9q/logo.png"); ("attachment.a", "/tmp/tmpk3x9q/a.bin")]
  = ["/tmp/tmpk3x9q/b.bin"; "/tmp/tmpk3x9q/a.bin"].
Proof.
  destruct (distinct_names_keep_arrival_order env_ok
              (multipart [mkPart (Some "attachment.b") (Some "b.bin") ["b"; ""];
                          mkPart (Some "html") (Some "doc.html") ["<p>"; ""];
                          mkPart (Some "asset.logo") (Some "logo.png") ["PNG"; ""];
                          mkPart (Some "attachment.a") (Some "a.bin") ["a"; ""]])
              world0
              (snd (staged env_ok
                      (multipart [mkPart (Some "attachment.b") (Some "b.bin") ["b"; ""];
                                  mkPart (Some "html") (Some "doc.html") ["<p>"; ""];
                                  mkPart (Some "asset.logo") (Some "logo.png") ["PNG"; ""];
                                  mkPart (Some "attachment.a") (Some "a.bin") ["a"; ""]])
                      world0))
              [("attachment.b", "/tmp/tmpk3x9q/b.bin");
               ("html", "/tmp/tmpk3x9q/doc.html");
               ("asset.logo", "/tmp/tmpk3x9q/logo.png");
               ("attachment.a", "/tmp/tmpk3x9q/a.bin")])
    as [_ H].
  - vm_compute. repeat constructor; simpl; intuition discriminate.
  - vm_compute. reflexivity.
  - exact H.
Defined.

(* ================================================================= *)
(** ** Further properties: a whole run of [render_pdf] *)

Lemma is_prefix_refl (d : list string) : is_prefix d d = true.
Proof.
  rewrite <- (app_nil_r d) at 2. apply is_prefix_app.
Qed.

Lemma fs_read_written (f : FS) (k : list string) (bytes : string) :
  fs_read (fs_append (fs_put f k (File "")) k bytes) k = Some bytes.
Proof.
  unfold fs_append, fs_read. now rewrite !fs_lookup_put_same.
Qed.

(** After the parts are staged the artifact can still be opened in the
    workspace: staging makes no directory and removes none. *)
Lemma target_opens_after_ingest (E : Env) (request : Request) (w w2 : World)
    (r : exn + dict string) :
  fresh_workspace E w ->
  staged E request w = (r, w2) ->
  fs_open_wb (fs w2)
    (PosixPath.key (cwd E) (PosixPath.join (workspace E w) "output.pdf"))
  = Some (fs_put (fs w2)
            (PosixPath.key (cwd E) (PosixPath.join (workspace E w) "output.pdf"))
            (File "")).
Proof.
  intros Hfresh Hst. unfold staged in Hst.
  destruct (fs_open_wb_inv _ _ _ (target_opens E w Hfresh)) as [_ [Hk [Hp Hd]]].
  apply fs_open_wb_some; [exact Hk | |].
  - now rewrite (ingest_is_dir _ _ _ _ _ _ _ _ Hst).
  - now rewrite (ingest_is_dir _ _ _ _ _ _ _ _ Hst).
Qed.

(** X5. A multipart request with a document, served in a fresh workspace by
    an engine that succeeds, is answered 200 with the bytes the engine
    produced, the content type [application/pdf] and the attachment name
    [output.pdf], whatever parts were staged beside the document. *)
Theorem render_pdf_streams_the_artifact (E : Env) (request : Request)
    (w w2 : World) (fd : dict string) (html_path bytes : string) :
  content_type request = "multipart/form-data" ->
  fresh_workspace E w ->
  staged E request w = (inr fd, w2) ->
  dict_get "html" fd = Some html_path ->
  HTML_init (engine E) (post_doc fd html_path) (fs w2) = None ->
  CSS_init (engine E) (post_sheet fd) (fs w2) = None ->
  write_pdf (engine E) (post_doc fd html_path) [post_sheet fd]
            (attachments_of fd) (fs w2) = inr bytes ->
  fst (render_pdf E request w)
  = inr (mkResponse 200
           [("Content-Type", "application/pdf");
            ("Content-Disposition",
             "attachment; filename=" ++ dquote ++ "output.pdf" ++ dquote)]
           bytes).
Proof.
  intros Hct Hfresh Hst Hg Hh Hc Hw.
  pose proof (target_opens_after_ingest E request w w2 _ Hfresh Hst) as Ho.
  assert (Hb : PosixPath.basename (PosixPath.join (workspace E w) "output.pdf")
               = "output.pdf").
  { apply basename_join_plain; [apply Hfresh | reflexivity]. }
  run_post E w Hct Hst. rewrite Hg.
  unfold bind, new_HTML, emit, get_fs, raise, ret, bind. cbn [fs log].
  unfold post_doc in Hh, Hw. rewrite Hh.
  unfold post_sheet in Hc, Hw.
  destruct (dict_get "css" fd) as [css_path|];
    unfold new_CSS, bind, emit, get_fs, raise, ret; cbn [fs log];
    rewrite Hc;
    unfold try_except_else, call_write_pdf, bind, emit, get_fs, put_fs, raise, ret;
    cbn [fs log]; rewrite Hw, Ho;
    (rewrite (stream_file_ok E _ _ bytes);
     [ | apply fs_read_written | rewrite Hb; reflexivity ]);
    unfold content_disposition; cbn [fst]; now rewrite Hb.
Qed.

Lemma render_pdf_streams_witness :
  fst (render_pdf env_ok
         (multipart [mkPart (Some "html") (Some "doc.html") ["<p>"; ""];
                     mkPart (Some "asset.logo") (Some "output.pdf") ["PNG"; ""]])
         world0)
  = inr (mkResponse 200
           [("Content-Type", "application/pdf");
            ("Content-Disposition",
             "attachment; filename=" ++ dquote ++ "output.pdf" ++ dquote)]
           "%PDF-1.7").
Proof.
  eapply (render_pdf_streams_the_artifact env_ok
            (multipart [mkPart (Some "html") (Some "doc.html") ["<p>"; ""];
                        mkPart (Some "asset.logo") (Some "output.pdf") ["PNG"; ""]])
            world0).
  - reflexivity.
  - exact world0_fresh.
  - vm_compute. reflexivity.
  - reflexivity.
  - reflexivity.
  - reflexivity.
  - reflexivity.
Defined.

(** The files a multipart run leaves: those at the end of ingestion, or
    those and the artifact, less the workspace. *)
Lemma render_pdf_fs_shape (E : Env) (request : Request) (w : World) :
  content_type request = "multipart/form-data" ->
  exists f3,
    fs (snd (render_pdf E request w))
    = fs_rmtree f3 (PosixPath.key (cwd E) (workspace E w))
    /\ (f3 = fs (snd (staged E request w))
        \/ exists bytes,
             f3 = fs_append
                    (fs_put (fs (snd (staged E request w)))
                       (PosixPath.key (cwd E)
                          (PosixPath.join (workspace E w) "output.pdf"))
                       (File ""))
                    (PosixPath.key (cwd E)
                       (PosixPath.join (workspace E w) "output.pdf"))
                    bytes).
Proof.
  intros Hct.
  destruct (staged E request w) as [[e|fd] w2] eqn:Hst; cbn [snd].
  { exists (fs w2). split; [|now left].
    now rewrite (render_pdf_staging_raises E request w Hct e w2 Hst). }
  destruct (dict_get "html" fd) as [html_path|] eqn:Hg.
  2:{ exists (fs w2). split; [|now left].
      now rewrite (render_pdf_no_html E request w Hct fd w2 Hst Hg). }
  destruct (HTML_init (engine E) (post_doc fd html_path) (fs w2)) as [e|] eqn:Hh.
  { exists (fs w2). split; [|now left].
    now rewrite (render_pdf_html_raises E request w Hct fd w2 html_path e Hst Hg Hh). }
  destruct (CSS_init (engine E) (post_sheet fd) (fs w2)) as [e|] eqn:Hc.
  { exists (fs w2). split; [|now left].
    now rewrite (render_pdf_css_raises E request w Hct fd w2 html_path e
                   Hst Hg Hh Hc). }
  destruct (write_pdf (engine E) (post_doc fd html_path) [post_sheet fd]
                      (attachments_of fd) (fs w2)) as [e|bytes] eqn:Hw.
  { exists (fs w2). split; [|now left].
    now rewrite (render_pdf_write_raises E request w Hct fd w2 html_path e
                   Hst Hg Hh Hc Hw). }
  run_post E w Hct Hst. rewrite Hg.
  unfold bind, new_HTML, emit, get_fs, raise, ret, bind. cbn [fs log].
  unfold post_doc in Hh, Hw. rewrite Hh.
  unfold post_sheet in Hc, Hw.
  destruct (dict_get "css" fd) as [css_path|];
    unfold new_CSS, bind, emit, get_fs, raise, ret; cbn [fs log];
    rewrite Hc;
    unfold try_except_else, call_write_pdf, bind, emit, get_fs, put_fs, raise, ret;
    cbn [fs log]; rewrite Hw.
  all: destruct (fs_open_wb (fs w2) _) as [f'|] eqn:Ho; cbn [fs log snd];
    [ destruct (fs_open_wb_inv _ _ _ Ho) as [-> _];
      exists (fs_append
                (fs_put (fs w2)
                   (PosixPath.key (cwd E)
                      (PosixPath.join (workspace E w) "output.pdf")) (File ""))
                (PosixPath.key (cwd E) (PosixPath.join (workspace E w) "output.pdf"))
                bytes);
      split; [|right; now exists bytes];
      match goal with
      | |- context [stream_file ?E0 ?f ?ct ?w0] =>
          destruct (stream_file E0 f ct w0) as [r4 w4] eqn:Hs;
          apply stream_file_inert in Hs as [Hs _]
      end;
      cbn [fs log snd] in *; now rewrite Hs
    | exists (fs w2); split; [reflexivity | now left] ].
Qed.

(** X6. Served in a fresh workspace, a request whose staged parts all
    declare plain file names leaves every path of the file system as the
    handler found it: what was staged and rendered is gone with the
    workspace, and nothing else was touched. *)
Theorem plain_names_leave_no_file_behind (E : Env) (request : Request) (w : World) :
  fresh_workspace E w ->
  plain_parts (parts request) ->
  forall k, fs_lookup (fs (snd (render_pdf E request w))) k = fs_lookup (fs w) k.
Proof.
  intros Hfresh Hplain k.
  destruct (content_type request =? "multipart/form-data") eqn:Hct.
  2:{ unfold render_pdf. rewrite Hct. reflexivity. }
  apply String.eqb_eq in Hct.
  destruct (render_pdf_fs_shape E request w Hct) as [f3 [-> Hf3]].
  destruct (is_prefix (PosixPath.key (cwd E) (workspace E w)) k) eqn:Hk.
  { rewrite (fs_lookup_rmtree _ _ _ Hk). symmetry. now apply Hfresh. }
  rewrite (fs_lookup_rmtree_outside _ _ _ Hk).
  assert (Hin : fs_lookup (fs (snd (staged E request w))) k = fs_lookup (fs w) k).
  { destruct (staged E request w) as [r w2] eqn:Hst. cbn [snd].
    unfold staged in Hst.
    rewrite (ingest_outside E _ _ k (proj1 Hfresh) Hk Hplain _ _ _ _ Hst).
    unfold entered. cbn [fs]. unfold fs_mkdir.
    apply fs_lookup_put_other. intros <-. now rewrite is_prefix_refl in Hk. }
  destruct Hf3 as [-> | [bytes ->]]; [exact Hin|].
  rewrite (target_key E w Hfresh).
  rewrite fs_append_lookup_other by now apply is_prefix_self_app_neq.
  rewrite fs_lookup_put_other by now apply is_prefix_self_app_neq.
  exact Hin.
Qed.

Lemma plain_names_witness :
  fs_lookup
    (fs (snd (render_pdf env_ok
                (multipart [mkPart (Some "html") (Some "doc.html") ["<p>"; ""];
                            mkPart (Some "asset.logo") (Some "logo.png") ["PNG"; ""]])
                world0)))
    ["tmp"; "tmpk3x9q"; "logo.png"]
  = None.
Proof.
  apply (plain_names_leave_no_file_behind env_ok
           (multipart [mkPart (Some "html") (Some "doc.html") ["<p>"; ""];
                       mkPart (Some "asset.logo") (Some "logo.png") ["PNG"; ""]])
           world0 world0_fresh).
  intros part n [<- | [<- | []]] [= <-] _; eexists; split; reflexivity.
Defined.

(* ================================================================= *)
(** ** Further properties: which entries of the allow-list can match *)

Lemma split_all_no_slash (s : string) :
  Forall (fun c => no_slash c = true) (split s).
Proof.
  induction s as [|c r IH]; simpl.
  - repeat constructor.
  - destruct (Ascii.eqb c "/") eqn:E.
    + constructor; [reflexivity | exact IH].
    + pose proof (split_nonempty r) as Hne.
      destruct (split r) as [|h t]; [congruence|].
      inversion IH as [|? ? Hh Ht]; subst.
      constructor; [|exact Ht]. simpl. now rewrite E, Hh.
Qed.

Lemma Forall_removelast {A} (P : A -> Prop) (l : list A) :
  Forall P l -> Forall P (removelast l).
Proof.
  induction l as [|x l IH]; intros H; simpl; [constructor|].
  inversion H as [|? ? Hx Hl]; subst.
  destruct l as [|y l']; [constructor|].
  constructor; [assumption | apply IH, Hl].
Qed.

Lemma norm_comps_no_slash (p : string) :
  Forall (fun c => no_slash c = true) (PosixPath.norm_comps p).
Proof.
  unfold PosixPath.norm_comps.
  assert (H : forall comps acc,
             Forall (fun c => no_slash c = true) comps ->
             Forall (fun c => no_slash c = true) acc ->
             Forall (fun c => no_slash c = true)
                    (fold_left (PosixPath.norm_step (PosixPath.initial_slashes p))
                               comps acc)).
  { induction comps as [|c comps IH]; intros acc Hc Hacc; simpl; [assumption|].
    inversion Hc as [|? ? Hc1 Hc2]; subst. apply IH; [assumption|].
    unfold PosixPath.norm_step.
    destruct ((c =? "") || (c =? ".")); [assumption|].
    destruct (_ || _ || _).
    - apply Forall_app. split; [assumption | now constructor].
    - now apply Forall_removelast. }
  apply H; [apply split_all_no_slash | constructor].
Qed.

Lemma split_concat (comps : list string) :
  Forall (fun c => no_slash c = true) comps ->
  split (String.concat "/" comps) = match comps with [] => [""] | _ => comps end.
Proof.
  induction comps as [|c comps IH]; intros H; [reflexivity|].
  inversion H as [|? ? Hc Hr]; subst.
  destruct comps as [|c' l].
  - simpl. now apply split_no_slash.
  - change (String.concat "/" (c :: c' :: l))
      with (c ++ "/" ++ String.concat "/" (c' :: l)).
    rewrite split_app_sep, (split_no_slash c Hc), (IH Hr). reflexivity.
Qed.

(** The string [abspath] returns has no [.] and no [..] component. *)
Lemma abspath_dot_free (cwd p : string) :
  PosixPath.isabs cwd = true -> dot_free (PosixPath.abspath cwd p).
Proof.
  intros Hc.
  destruct (abspath_shape cwd p Hc) as [n [Hn ->]].
  pose proof (key_clean cwd p Hc) as Hclean.
  assert (Hns : Forall (fun c => no_slash c = true) (PosixPath.key cwd p))
    by apply norm_comps_no_slash.
  assert (Hin : forall x,
             In x (split (PosixPath.slashes n
                          ++ str_join PosixPath.sep (PosixPath.key cwd p))) ->
             x = "" \/ In x (PosixPath.key cwd p)).
  { unfold str_join, PosixPath.sep.
    pose proof (split_concat _ Hns) as Hs.
    destruct Hn as [-> | ->]; simpl; rewrite Hs;
      destruct (PosixPath.key cwd p); simpl; intuition. }
  rewrite Forall_forall in Hclean.
  split; intros H; destruct (Hin _ H) as [E | E]; try discriminate E;
    destruct (Hclean _ E) as [_ [H1 H2]]; congruence.
Qed.

(** X7. A local locator is delegated only on the strength of an entry of
    the allow-list that is the normalised path itself: that entry is
    absolute and has no [.] and no [..] component. An entry that is not in
    this form, such as the staged path of a part declared as [../x], allows
    nothing. *)
Theorem only_normalised_entries_match (urlparse : string -> ParseResult)
    (cwd : string) (valid_paths : list string) (url : string) :
  PosixPath.isabs cwd = true ->
  scheme (urlparse url) <> "data" ->
  URLFetcher_call urlparse cwd valid_paths url = Delegate url ->
  let p := PosixPath.abspath cwd (path (urlparse url)) in
  In p valid_paths /\ PosixPath.isabs p = true /\ dot_free p.
Proof.
  intros Hc Hd Hcall p. unfold URLFetcher_call in Hcall.
  apply String.eqb_neq in Hd. rewrite Hd in Hcall.
  destruct (str_in (scheme (urlparse url)) [""; "file"] && _); [|discriminate].
  fold p in Hcall.
  destruct (str_in p valid_paths) eqn:Hin; [|discriminate].
  split; [now apply str_in_In|].
  split; [now apply abspath_isabs | now apply abspath_dot_free].
Qed.

Lemma only_normalised_witness :
  In "/tmp/tmpk3x9q/logo.png"
     ["/tmp/tmpk3x9q/../evil.html"; "/tmp/tmpk3x9q/logo.png"]
  /\ dot_free "/tmp/tmpk3x9q/logo.png".
Proof.
  destruct (only_normalised_entries_match urlparse_ref "/srv/app"
              ["/tmp/tmpk3x9q/../evil.html"; "/tmp/tmpk3x9q/logo.png"]
              "file:///tmp/tmpk3x9q/./logo.png" eq_refl
              ltac:(discriminate) eq_refl) as [H1 [_ H2]].
  split; [exact H1 | exact H2].
Defined.

(* ================================================================= *)
(** ** Further properties: a staged part can be referenced *)

Lemma normpath_abs (p : string) :
  PosixPath.isabs p = true ->
  PosixPath.normpath p
  = PosixPath.slashes (PosixPath.initial_slashes p)
    ++ str_join PosixPath.sep (PosixPath.norm_comps p).
Proof.
  intros Habs. unfold PosixPath.normpath.
  destruct p as [|c r]; [discriminate Habs|]. simpl (_ =? _). cbv iota zeta.
  destruct (initial_slashes_abs _ Habs) as [-> | ->]; reflexivity.
Qed.

Lemma concat_app_last (sep x : string) (l : list string) :
  l <> [] ->
  String.concat sep (l ++ [x]) = String.concat sep l ++ sep ++ x.
Proof.
  induction l as [|c l IH]; intros Hne; [congruence|].
  destruct l as [|c' l'].
  - reflexivity.
  - change (String.concat sep ((c :: c' :: l') ++ [x]))
      with (c ++ sep ++ String.concat sep ((c' :: l') ++ [x])).
    rewrite IH by discriminate.
    change (String.concat sep (c :: c' :: l'))
      with (c ++ sep ++ String.concat sep (c' :: l')).
    now rewrite !append_assoc.
Qed.

(** Below a workspace given in normal form, the joined name of a plain file
    is in normal form too. *)
Lemma abspath_join_plain (cwd ws fn : string) :
  PosixPath.isabs ws = true ->
  PosixPath.abspath cwd ws = ws ->
  endswith_sep ws = false ->
  plain_name fn = true ->
  PosixPath.abspath cwd (PosixPath.join ws fn) = PosixPath.join ws fn.
Proof.
  intros Habs Hnorm Hend Hfn.
  pose proof (key_join_plain cwd ws fn Habs Hfn) as Hkey.
  unfold PosixPath.key in Hkey. unfold PosixPath.abspath in *.
  rewrite (join_isabs ws fn Habs Hfn) in *. rewrite Habs in *.
  rewrite (normpath_abs _ (join_isabs ws fn Habs Hfn)).
  rewrite (normpath_abs _ Habs) in Hnorm.
  rewrite (initial_slashes_join ws fn Habs Hfn), Hkey.
  assert (Hne : PosixPath.norm_comps ws <> []).
  { intros E. rewrite E in Hnorm.
    destruct (initial_slashes_abs _ Habs) as [H | H]; rewrite H in Hnorm;
      rewrite <- Hnorm in Hend; discriminate Hend. }
  unfold str_join in *. rewrite (concat_app_last _ _ _ Hne).
  rewrite <- append_assoc, Hnorm.
  destruct (plain_name_inv fn Hfn) as [_ [_ [c0 [b' [E Hc0]]]]].
  unfold PosixPath.join.
  assert (Hs : startswith fn PosixPath.sep = false).
  { subst fn. unfold PosixPath.sep. rewrite startswith_cons.
    apply Ascii.eqb_neq in Hc0. now rewrite Ascii.eqb_sym, Hc0. }
  rewrite Hs, Hend.
  destruct ws; [discriminate Habs | reflexivity].
Qed.

Lemma dict_get_In_values (k v : string) (d : dict string) :
  dict_get k d = Some v -> In v (dict_values d).
Proof.
  induction d as [|[k' v'] d IH]; simpl; [discriminate|].
  destruct (k' =? k); [intros [= ->]; now left | intros H; right; now apply IH].
Qed.

(** As [ingest_origin], with the fact that the name was one to stage. *)
Lemma ingest_origin_accepted (E : Env) (d : string) (ps : list Part) (k : string) :
  forall (fd fd' : dict string) (w w' : World) (v : string),
    ingest E d ps fd w = (inr fd', w') ->
    dict_get k fd' = Some v ->
    dict_get k fd = Some v \/
    exists part fn, In part ps /\ name part = Some k /\ accepted k = true /\
                    filename part = Some fn /\ v = PosixPath.join d fn.
Proof.
  induction ps as [|part ps IH]; intros fd fd' w w' v; simpl.
  - unfold ret. intros [= <- <-] H. now left.
  - destruct (name part) as [n|] eqn:Hn; [|discriminate].
    destruct (accepted n) eqn:Ha.
    + rewrite bind_run.
      destruct (save_part_to_file E part d w) as [[e|p] w1] eqn:Hs; [discriminate|].
      intros Hi Hg.
      destruct (IH _ _ _ _ _ Hi Hg) as [Hold | [part' [fn [Hin H]]]].
      * destruct (String.eqb_spec n k) as [->|Hne].
        -- rewrite dict_get_set_same in Hold. injection Hold as <-.
           destruct (proj2 (save_part_to_file_inv _ _ _ _ _ _ Hs) p eq_refl)
             as [fn [Hf ->]].
           right. exists part, fn. auto 6.
        -- rewrite dict_get_set_other in Hold by assumption. now left.
      * right. exists part', fn. split; [now right | exact H].
    + intros Hi Hg.
      destruct (IH _ _ _ _ _ Hi Hg) as [Hold | [part' [fn [Hin H]]]].
      * now left.
      * right. exists part', fn. split; [now right | exact H].
Qed.

(** X8. What a request stages it may reference. When the workspace path is
    absolute, in normal form and does not end in a slash, and the staged
    parts declare plain file names, every path of the mapping built by the
    ingestion is delegated by the fetcher bound for that request, for any
    locator of empty or [file] scheme whose path is that staged path. *)
Theorem staged_part_is_fetchable (urlparse : string -> ParseResult) (E : Env)
    (request : Request) (w w2 : World) (fd : dict string) (n p url : string) :
  PosixPath.isabs (workspace E w) = true ->
  PosixPath.abspath (cwd E) (workspace E w) = workspace E w ->
  endswith_sep (workspace E w) = false ->
  plain_parts (parts request) ->
  staged E request w = (inr fd, w2) ->
  dict_get n fd = Some p ->
  In (scheme (urlparse url)) [""; "file"] ->
  path (urlparse url) = p ->
  URLFetcher_call urlparse (cwd E) (dict_values fd) url = Delegate url.
Proof.
  intros Habs Hnorm Hend Hplain Hst Hg Hs Hp.
  unfold staged in Hst.
  destruct (ingest_origin_accepted _ _ _ _ _ _ _ _ _ Hst Hg)
    as [Hold | [part [fn [Hin [Hn [Ha [Hf ->]]]]]]]; [discriminate Hold|].
  destruct (Hplain part n Hin Hn Ha) as [fn' [Hf' Hpl]].
  assert (fn' = fn) by congruence. subst fn'.
  pose proof (abspath_join_plain (cwd E) _ fn Habs Hnorm Hend Hpl) as Hfix.
  unfold URLFetcher_call.
  assert (Hd : (scheme (urlparse url) =? "data") = false).
  { apply String.eqb_neq. intros Ed. rewrite Ed in Hs.
    simpl in Hs. intuition discriminate. }
  rewrite Hd. apply str_in_In in Hs. rewrite Hs, Hp.
  assert (Hne : (PosixPath.join (workspace E w) fn =? "") = false).
  { apply String.eqb_neq. intros Ee.
    pose proof (join_isabs _ fn Habs Hpl) as Hj. rewrite Ee in Hj. discriminate Hj. }
  rewrite Hne. simpl. rewrite Hfix.
  apply dict_get_In_values in Hg. apply str_in_In in Hg. now rewrite Hg.
Qed.

(** A document next to its logo may load the logo by its staged path. *)
Lemma staged_part_witness :
  URLFetcher_call urlparse_ref "/srv/app"
    ["/tmp/tmpk3x9q/doc.html"; "/tmp/tmpk3x9q/logo.png"]
    "file:///tmp/tmpk3x9q/logo.png"
  = Delegate "file:///tmp/tmpk3x9q/logo.png".
Proof.
  eapply (staged_part_is_fetchable urlparse_ref env_ok
            (multipart [mkPart (Some "html") (Some "doc.html") ["<p>"; ""];
                        mkPart (Some "asset.logo") (Some "logo.png") ["PNG"; ""]])
            world0 _
            [("html", "/tmp/tmpk3x9q/doc.html");
             ("asset.logo", "/tmp/tmpk3x9q/logo.png")]
            "asset.logo" "/tmp/tmpk3x9q/logo.png" "file:///tmp/tmpk3x9q/logo.png").
  - reflexivity.
  - reflexivity.
  - reflexivity.
  - intros part n [<- | [<- | []]] [= <-] _; eexists; split; reflexivity.
  - vm_compute. reflexivity.
  - reflexivity.
  - simpl. right. left. reflexivity.
  - reflexivity.
Defined.

(* ================================================================= *)
(** ** Further properties: failures outside the [try] block *)

(** X9. The documents and style sheets are built before the [try] block.
    An exception raised by [HTML(...)] or [CSS(...)] therefore leaves the
    handler as it is: no 500 response is built for it, [write_pdf] is not
    called and nothing is logged, in the multipart handler and in the [url]
    handler alike. *)
Theorem constructor_failure_is_not_caught (E : Env) (request : Request)
    (w : World) (e : exn) :
  (forall fd w2 html_path,
      content_type request = "multipart/form-data" ->
      staged E request w = (inr fd, w2) ->
      dict_get "html" fd = Some html_path ->
      (HTML_init (engine E) (post_doc fd html_path) (fs w2) = Some e
       \/ (HTML_init (engine E) (post_doc fd html_path) (fs w2) = None
           /\ CSS_init (engine E) (post_sheet fd) (fs w2) = Some e)) ->
      fst (render_pdf E request w) = inl e
      /\ forall ev, In ev (log (snd (render_pdf E request w))) ->
           In ev (log w) \/ ev = Mkdtemp (workspace E w)
           \/ ev = NewHTML (post_doc fd html_path) \/ ev = NewCSS (post_sheet fd)
           \/ ev = Cleanup (workspace E w))
  /\
  (forall url,
      query_getone "url" (query request) = Some url ->
      HTML_init (engine E) (get_doc url) (fs (entered E w)) = Some e ->
      fst (render_pdf_url E request w) = inl e
      /\ forall ev, In ev (log (snd (render_pdf_url E request w))) ->
           In ev (log w) \/ ev = Mkdtemp (workspace E w)
           \/ ev = NewHTML (get_doc url) \/ ev = Cleanup (workspace E w)).
Proof.
  split.
  - intros fd w2 html_path Hct Hst Hg Hfail.
    assert (Hl : log w2 = (log w ++ [Mkdtemp (workspace E w)])%list).
    { unfold staged in Hst. now apply ingest_log in Hst. }
    destruct Hfail as [Hh | [Hh Hc]].
    + rewrite (render_pdf_html_raises E request w Hct fd w2 html_path e Hst Hg Hh).
      split; [reflexivity|]. unfold leave, add_log. cbn [fs log snd].
      rewrite Hl. intros ev. rewrite !in_app_iff. simpl. intuition.
    + rewrite (render_pdf_css_raises E request w Hct fd w2 html_path e
                 Hst Hg Hh Hc).
      split; [reflexivity|]. unfold leave, add_log. cbn [fs log snd].
      rewrite Hl. intros ev. rewrite !in_app_iff. simpl. intuition.
  - intros url Hurl Hh.
    rewrite (render_pdf_url_html_raises E request w url Hurl e Hh).
    split; [reflexivity|]. unfold leave, add_log, entered. cbn [fs log snd].
    intros ev. rewrite !in_app_iff. simpl. intuition.
Qed.

Lemma constructor_failure_witness :
  fst (render_pdf env_unreadable
         (multipart [mkPart (Some "html") (Some "doc.html") ["<p>"; ""]]) world0)
  = inl (OSError "cannot read the document")
  /\ fst (render_pdf env_no_css
            (multipart [mkPart (Some "html") (Some "doc.html") ["<p>"; ""];
                        mkPart (Some "css") (Some "s.css") ["p{}"; ""]]) world0)
     = inl (OSError "cannot read the style sheet")
  /\ fst (render_pdf_url env_unreadable
            (get_request [("url", "http://unreachable.example/")]) world0)
     = inl (OSError "cannot read the document").
Proof.
  split; [|split].
  - eapply (proj1 (constructor_failure_is_not_caught env_unreadable
                     (multipart [mkPart (Some "html") (Some "doc.html") ["<p>"; ""]])
                     world0 (OSError "cannot read the document"))).
    + reflexivity.
    + vm_compute. reflexivity.
    + reflexivity.
    + left. reflexivity.
  - eapply (proj1 (constructor_failure_is_not_caught env_no_css
                     (multipart [mkPart (Some "html") (Some "doc.html") ["<p>"; ""];
                                 mkPart (Some "css") (Some "s.css") ["p{}"; ""]])
                     world0 (OSError "cannot read the style sheet"))).
    + reflexivity.
    + vm_compute. reflexivity.
    + reflexivity.
    + right. split; reflexivity.
  - eapply (proj2 (constructor_failure_is_not_caught env_unreadable
                     (get_request [("url", "http://unreachable.example/")])
                     world0 (OSError "cannot read the document"))).
    + reflexivity.
    + reflexivity.
Defined.

(* ================================================================= *)
(** ** Further properties: a whole run of [render_pdf_url] *)

Lemma render_pdf_url_fs_shape (E : Env) (request : Request) (w : World)
    (url : string) :
  query_getone "url" (query request) = Some url ->
  exists f3,
    fs (snd (render_pdf_url E request w))
    = fs_rmtree f3 (PosixPath.key (cwd E) (workspace E w))
    /\ (f3 = fs (entered E w)
        \/ exists bytes,
             f3 = fs_append
                    (fs_put (fs (entered E w))
                       (PosixPath.key (cwd E)
                          (PosixPath.join (workspace E w) "output.pdf"))
                       (File ""))
                    (PosixPath.key (cwd E)
                       (PosixPath.join (workspace E w) "output.pdf"))
                    bytes).
Proof.
  intros Hurl. unfold render_pdf_url. rewrite Hurl.
  unfold with_TemporaryDirectory. cbv zeta. rewrite bind_run.
  unfold new_HTML, bind, emit, get_fs, raise, ret. cbn [fs log].
  fold (workspace E w).
  destruct (HTML_init (engine E) _ _) as [e|].
  { exists (fs (entered E w)). split; [reflexivity | now left]. }
  unfold try_except_else, call_write_pdf, bind, emit, get_fs, put_fs, raise, ret.
  cbn [fs log].
  destruct (write_pdf (engine E) _ _ _ _) as [e|bytes].
  { exists (fs (entered E w)). split; [reflexivity | now left]. }
  destruct (fs_open_wb _ _) as [f'|] eqn:Ho.
  - destruct (fs_open_wb_inv _ _ _ Ho) as [-> _].
    eexists. split; [|right; now exists bytes].
    match goal with
    | |- context [stream_file_ext E ?f ?ct ?o ?i ?w0] =>
        destruct (stream_file_ext E f ct o i w0) as [r4 w4] eqn:Hs;
        apply stream_file_ext_inert in Hs as [Hs _]
    end.
    cbn [fs log snd] in *. now rewrite Hs.
  - exists (fs (entered E w)). split; [reflexivity | now left].
Qed.

(** X11. Served in a fresh workspace, a GET leaves every path of the file
    system as the handler found it, whether it ends in a response or in an
    exception: the artifact is gone with the workspace. *)
Theorem url_mode_leaves_no_file_behind (E : Env) (request : Request) (w : World) :
  fresh_workspace E w ->
  forall k, fs_lookup (fs (snd (render_pdf_url E request w))) k = fs_lookup (fs w) k.
Proof.
  intros Hfresh k.
  destruct (query_getone "url" (query request)) as [url|] eqn:Hurl.
  2:{ unfold render_pdf_url. now rewrite Hurl. }
  destruct (render_pdf_url_fs_shape E request w url Hurl) as [f3 [-> Hf3]].
  destruct (is_prefix (PosixPath.key (cwd E) (workspace E w)) k) eqn:Hk.
  { rewrite (fs_lookup_rmtree _ _ _ Hk). symmetry. now apply Hfresh. }
  rewrite (fs_lookup_rmtree_outside _ _ _ Hk).
  assert (Hin : fs_lookup (fs (entered E w)) k = fs_lookup (fs w) k).
  { unfold entered. cbn [fs]. unfold fs_mkdir.
    apply fs_lookup_put_other. intros <-. now rewrite is_prefix_refl in Hk. }
  destruct Hf3 as [-> | [bytes ->]]; [exact Hin|].
  rewrite (target_key E w Hfresh).
  rewrite fs_append_lookup_other by now apply is_prefix_self_app_neq.
  rewrite fs_lookup_put_other by now apply is_prefix_self_app_neq.
  exact Hin.
Qed.

Lemma url_mode_no_file_witness :
  fs_lookup
    (fs (snd (render_pdf_url env_ok
                (get_request [("url", "http://example.org/")]) world0)))
    ["tmp"; "tmpk3x9q"; "output.pdf"]
  = None.
Proof.
  apply (url_mode_leaves_no_file_behind env_ok
           (get_request [("url", "http://example.org/")]) world0 world0_fresh).
Defined.
